(** * NumericOverflows: bounds-checked accumulation

    A shallow embedding of [NumericOverflows.cpp]: the two function templates
    [add_numbers] and [subtract_numbers], the result record [CalcResult] and
    the two test drivers [test_overflow] and [test_underflow].

    The templates are generic in a numeric type [T].  The embedding keeps that
    shape: a [NumType] packs a carrier with the operations the templates use
    ([numeric_limits<T>::max()], [lowest()], [<], [>], [+], [-], [+=], [-=]),
    and is instantiated for the built-in integer types (signed and unsigned,
    any width, with the integral promotions of narrow types) and for the IEEE
    binary floating-point formats (through the executable specification
    [SpecFloat] of the Standard Library).

    Every arithmetic operation a template performs is recorded, with its
    operands, in a trace, so that statements about the operations that are
    (or are not) carried out can be made about the very same definition that
    computes the result. *)

From Stdlib Require Import ZArith List Bool Lia.
From Stdlib Require Import Floats.SpecFloat.
Import ListNotations.

Local Open Scope Z_scope.

(** ** The interface of a numeric type *)

Record NumType : Type := {
  carrier      :> Type;
  T_zero       : carrier;                       (* T{ 0 } *)
  T_max        : carrier;                       (* numeric_limits<T>::max() *)
  T_lowest     : carrier;                       (* numeric_limits<T>::lowest() *)
  T_gt         : carrier -> carrier -> bool;    (* a > b *)
  T_lt         : carrier -> carrier -> bool;    (* a < b *)
  T_add        : carrier -> carrier -> carrier; (* a + b, as an rvalue *)
  T_sub        : carrier -> carrier -> carrier; (* a - b, as an rvalue *)
  T_add_assign : carrier -> carrier -> carrier; (* new value of a after a += b *)
  T_sub_assign : carrier -> carrier -> carrier; (* new value of a after a -= b *)
  T_neg        : carrier -> carrier;            (* -a, stored back into a T *)
  T_div_steps  : carrier -> nat -> carrier      (* a / n with n an unsigned long, stored into a T *)
}.

(** ** The templates

    A computation returns its result together with the list of the
    arithmetic operations it has performed, in order. *)

Section Template.

Variable T : NumType.

(** struct CalcResult *)
Record CalcResult : Type := {
  value   : T;
  success : bool
}.

(** The arithmetic operations of the templates, with their operands. *)
Inductive arith_op : Type :=
| Minus       (a b : T)    (* a - b in a guard *)
| Plus        (a b : T)    (* a + b in a guard *)
| PlusAssign  (a b : T)    (* a += b *)
| MinusAssign (a b : T).   (* a -= b *)

Definition Traced (A : Type) : Type := (A * list arith_op)%type.

Definition ret {A : Type} (a : A) : Traced A := (a, []).

Definition bind {A B : Type} (m : Traced A) (f : A -> Traced B) : Traced B :=
  let (a, t1) := m in
  let (b, t2) := f a in
  (b, t1 ++ t2).

Definition result {A : Type} (m : Traced A) : A := fst m.
Definition trace {A : Type} (m : Traced A) : list arith_op := snd m.

Local Notation "x <- m ;; k" := (bind m (fun x => k))
  (at level 61, m at next level, right associativity).

Definition minus (a b : T) : Traced T := (T_sub T a b, [Minus a b]).
Definition plus (a b : T) : Traced T := (T_add T a b, [Plus a b]).
Definition plus_assign (a b : T) : Traced T := (T_add_assign T a b, [PlusAssign a b]).
Definition minus_assign (a b : T) : Traced T := (T_sub_assign T a b, [MinusAssign a b]).

(** *** add_numbers *)

(** The pre-check of one iteration of [add_numbers] (the [if / else if] in
    the loop body): [true] when the iteration must stop and report. *)
Definition add_unsafe (increment cur : T) : Traced bool :=
  let maxVal := T_max T in
  let lowVal := T_lowest T in
  if T_gt T increment (T_zero T) then
    bound <- minus maxVal increment ;;
    ret (T_gt T cur bound)
  else if T_lt T increment (T_zero T) then
    bound <- minus lowVal increment ;;
    ret (T_lt T cur bound)
  else ret false.

(** The [for] loop of [add_numbers]; [n] is the number of iterations left,
    [out] the local variable of that name. *)
Fixpoint add_loop (increment : T) (n : nat) (out : CalcResult) : Traced CalcResult :=
  match n with
  | O => ret out
  | S n' =>
      stop <- add_unsafe increment (value out) ;;
      if stop then
        ret {| value := value out; success := false |}
      else
        v <- plus_assign (value out) increment ;;
        add_loop increment n' {| value := v; success := success out |}
  end.

Definition add_numbers_traced (start increment : T) (steps : nat) : Traced CalcResult :=
  add_loop increment steps {| value := start; success := true |}.

Definition add_numbers (start increment : T) (steps : nat) : CalcResult :=
  result (add_numbers_traced start increment steps).

(** *** subtract_numbers *)

Definition subtract_unsafe (decrement cur : T) : Traced bool :=
  let maxVal := T_max T in
  let lowVal := T_lowest T in
  if T_gt T decrement (T_zero T) then
    bound <- plus lowVal decrement ;;
    ret (T_lt T cur bound)
  else if T_lt T decrement (T_zero T) then
    bound <- plus maxVal decrement ;;
    ret (T_gt T cur bound)
  else ret false.

Fixpoint subtract_loop (decrement : T) (n : nat) (out : CalcResult) : Traced CalcResult :=
  match n with
  | O => ret out
  | S n' =>
      stop <- subtract_unsafe decrement (value out) ;;
      if stop then
        ret {| value := value out; success := false |}
      else
        v <- minus_assign (value out) decrement ;;
        subtract_loop decrement n' {| value := v; success := success out |}
  end.

Definition subtract_numbers_traced (start decrement : T) (steps : nat) : Traced CalcResult :=
  subtract_loop decrement steps {| value := start; success := true |}.

Definition subtract_numbers (start decrement : T) (steps : nat) : CalcResult :=
  result (subtract_numbers_traced start decrement steps).

(** *** The test drivers

    [test_overflow] and [test_underflow] print their two results; the model
    returns them. *)
Record TestRun : Type := {
  r1 : CalcResult;   (* the call with [steps] *)
  r2 : CalcResult    (* the call with [steps + 1] *)
}.

Definition test_overflow : TestRun :=
  let steps := 5%nat in
  let increment := T_div_steps T (T_max T) steps in
  let start := T_zero T in
  {| r1 := add_numbers start increment steps;
     r2 := add_numbers start increment (steps + 1) |}.

Definition test_underflow : TestRun :=
  let steps := 5%nat in
  let decrement := T_div_steps T (T_max T) steps in
  let start := T_max T in
  {| r1 := subtract_numbers start decrement steps;
     r2 := subtract_numbers start decrement (steps + 1) |}.

(** The number of accumulations ([+=] or [-=]) in a trace. *)
Definition is_accumulation (op : arith_op) : bool :=
  match op with
  | PlusAssign _ _ | MinusAssign _ _ => true
  | Minus _ _ | Plus _ _ => false
  end.

Definition accumulations (t : list arith_op) : nat :=
  length (filter is_accumulation t).

(** The running total after [k] executions of [value += increment]
    (respectively [value -= decrement]) from [cur], as the type computes it. *)
Fixpoint add_total (increment : T) (k : nat) (cur : T) : T :=
  match k with
  | O => cur
  | S k' => add_total increment k' (T_add_assign T cur increment)
  end.

Fixpoint subtract_total (decrement : T) (k : nat) (cur : T) : T :=
  match k with
  | O => cur
  | S k' => subtract_total decrement k' (T_sub_assign T cur decrement)
  end.

End Template.

Arguments value {T} _.
Arguments success {T} _.
Arguments Minus {T} _ _.
Arguments Plus {T} _ _.
Arguments PlusAssign {T} _ _.
Arguments MinusAssign {T} _ _.
Arguments result {T A} _.
Arguments trace {T A} _.
Arguments r1 {T} _.
Arguments r2 {T} _.
Arguments accumulations {T} _.

(** ** The built-in integer types *)

Record inttype : Type := {
  is_signed : bool;
  bits      : positive
}.

Definition int_max (ty : inttype) : Z :=
  if is_signed ty then 2 ^ (Zpos (bits ty) - 1) - 1 else 2 ^ Zpos (bits ty) - 1.

Definition int_lowest (ty : inttype) : Z :=
  if is_signed ty then - 2 ^ (Zpos (bits ty) - 1) else 0.

Definition in_range (ty : inttype) (z : Z) : Prop :=
  int_lowest ty <= z <= int_max ty.

Definition in_rangeb (ty : inttype) (z : Z) : bool :=
  (int_lowest ty <=? z) && (z <=? int_max ty).

(** Reduction of a mathematical result to the type: modulo [2^bits], into
    [0 .. 2^bits - 1] for an unsigned type and into
    [-2^(bits-1) .. 2^(bits-1) - 1] for a signed one (two's complement).
    For a signed type the language leaves an out-of-range result undefined;
    [int_trace_in_range] shows that the templates never produce one, so that
    the choice made here is never observed. *)
Definition wrap (ty : inttype) (z : Z) : Z :=
  if is_signed ty
  then (z + 2 ^ (Zpos (bits ty) - 1)) mod 2 ^ Zpos (bits ty) - 2 ^ (Zpos (bits ty) - 1)
  else z mod 2 ^ Zpos (bits ty).

Definition c_int : inttype := {| is_signed := true; bits := 32 |}.

(** Integral promotion: an operand of a type narrower than [int] is converted
    to [int] before an arithmetic operation or a comparison. *)
Definition promote (ty : inttype) : inttype :=
  if (bits ty <? bits c_int)%positive then c_int else ty.

Definition IntType (ty : inttype) : NumType := {|
  carrier      := Z;
  T_zero       := 0;
  T_max        := int_max ty;
  T_lowest     := int_lowest ty;
  T_gt         := fun a b => b <? a;
  T_lt         := fun a b => a <? b;
  T_add        := fun a b => wrap (promote ty) (a + b);
  T_sub        := fun a b => wrap (promote ty) (a - b);
  T_add_assign := fun a b => wrap ty (wrap (promote ty) (a + b));
  T_sub_assign := fun a b => wrap ty (wrap (promote ty) (a - b));
  T_neg        := fun a => wrap ty (wrap (promote ty) (- a));
  (* the dividend of the drivers is max(), which is not negative, so the
     usual arithmetic conversions with unsigned long leave it unchanged *)
  T_div_steps  := fun a n => wrap ty (a ÷ Z.of_nat n)
|}.

Definition c_char      : inttype := {| is_signed := true;  bits := 8 |}.
Definition c_short     : inttype := {| is_signed := true;  bits := 16 |}.
Definition c_longlong  : inttype := {| is_signed := true;  bits := 64 |}.
Definition c_uchar     : inttype := {| is_signed := false; bits := 8 |}.
Definition c_ushort    : inttype := {| is_signed := false; bits := 16 |}.
Definition c_uint      : inttype := {| is_signed := false; bits := 32 |}.
Definition c_ulonglong : inttype := {| is_signed := false; bits := 64 |}.

(** The mathematical result of an operation on integers. *)
Definition exact (ty : inttype) (op : arith_op (IntType ty)) : Z :=
  match op with
  | Minus a b | MinusAssign a b => a - b
  | Plus a b | PlusAssign a b => a + b
  end.

(** Every operation of a trace has its mathematical result in the type. *)
Definition ops_in_range (ty : inttype) (t : list (arith_op (IntType ty))) : Prop :=
  Forall (fun op => in_range ty (exact ty op)) t.

(** ** The binary floating-point types *)

Definition Binary (prec emax : Z) : NumType := {|
  carrier      := spec_float;
  T_zero       := S754_zero false;
  T_max        := SFmax_float prec emax;
  T_lowest     := SFopp (SFmax_float prec emax);
  T_gt         := fun a b => SFltb b a;
  T_lt         := fun a b => SFltb a b;
  T_add        := SFadd prec emax;
  T_sub        := SFsub prec emax;
  T_add_assign := SFadd prec emax;
  T_sub_assign := SFsub prec emax;
  T_neg        := SFopp;
  T_div_steps  := fun a n => SFdiv prec emax a (binary_normalize prec emax (Z.of_nat n) 0 false)
|}.

Definition c_float : NumType := Binary 24 128.
Definition c_double : NumType := Binary 53 1024.

Definition is_finite (x : spec_float) : bool :=
  match x with
  | S754_zero _ | S754_finite _ _ _ => true
  | S754_infinity _ | S754_nan => false
  end.

(** Two floating-point values that are the same datum or compare equal with
    [==]: equal, or two zeros. *)
Definition same_number (a b : spec_float) : Prop :=
  a = b \/ exists sa sb, a = S754_zero sa /\ b = S754_zero sb.

(** Two values of [double]: the largest one but one,
    [0x1.ffffffffffffep+1023 = max - 2^971], and one and a half units in the
    last place of [max], [0x1.8p+971 = 3 * 2^970]. *)
Definition near_max : c_double := S754_finite false 9007199254740990 971.
Definition ulp_and_half : c_double := S754_finite false 6755399441055744 919.
Definition near_lowest : c_double := SFopp near_max.

(** A third value of [double], seven units in the last place below [max]:
    [0x1.ffffffffffff8p+1023 = max - 7 * 2^971]. *)
Definition far_start : c_double := S754_finite false 9007199254740984 971.

(** The number a finite floating-point value with a non-negative exponent
    stands for, [(-1)^s * m * 2^e], as an integer. *)
Definition finite_value (x : spec_float) : Z :=
  match x with
  | S754_finite s m e => cond_Zopp s (Zpos m * 2 ^ e)
  | S754_zero _ | S754_infinity _ | S754_nan => 0
  end.

(** The operations [add_numbers] can perform with the step [increment]: a
    pre-check subtracts the step from a limit of the type, an accumulation
    adds the step to the running value.  [subtract_numbers] mirrors them. *)
Definition add_op_shape (T : NumType) (increment : T) (op : arith_op T) : Prop :=
  match op with
  | Minus a b => (a = T_max T \/ a = T_lowest T) /\ b = increment
  | PlusAssign _ b => b = increment
  | Plus _ _ | MinusAssign _ _ => False
  end.

Definition subtract_op_shape (T : NumType) (decrement : T) (op : arith_op T) : Prop :=
  match op with
  | Plus a b => (a = T_max T \/ a = T_lowest T) /\ b = decrement
  | MinusAssign _ b => b = decrement
  | Minus _ _ | PlusAssign _ _ => False
  end.

Example int_boundary_5 :
  add_numbers (IntType c_int) 0 429496729 5 = Build_CalcResult (IntType c_int) 2147483645 true.
Proof. reflexivity. Qed.

Example int_boundary_6 :
  add_numbers (IntType c_int) 0 429496729 6 = Build_CalcResult (IntType c_int) 2147483645 false.
Proof. reflexivity. Qed.

Example uchar_underflow_5 :
  subtract_numbers (IntType c_uchar) 255 51 5 = Build_CalcResult (IntType c_uchar) 0 true.
Proof. reflexivity. Qed.

Example uchar_underflow_6 :
  subtract_numbers (IntType c_uchar) 255 51 6 = Build_CalcResult (IntType c_uchar) 0 false.
Proof. reflexivity. Qed.

(** ** Facts that hold for every numeric type *)

Section Generic.

Variable T : NumType.

Lemma result_bind (A B : Type) (m : Traced T A) (f : A -> Traced T B) :
  result (bind T m f) = result (f (result m)).
Proof. destruct m as [a t]; simpl; destruct (f a); reflexivity. Qed.

Lemma trace_bind (A B : Type) (m : Traced T A) (f : A -> Traced T B) :
  trace (bind T m f) = trace m ++ trace (f (result m)).
Proof. destruct m as [a t]; simpl; destruct (f a); reflexivity. Qed.

Lemma traced_eq (A : Type) (m1 m2 : Traced T A) :
  result m1 = result m2 -> trace m1 = trace m2 -> m1 = m2.
Proof. destruct m1, m2; simpl; intros; subst; reflexivity. Qed.

Lemma add_loop_S (increment : T) (n : nat) (out : CalcResult T) :
  add_loop T increment (S n) out =
  bind T (add_unsafe T increment (value out)) (fun stop =>
    if stop then ret T (Build_CalcResult T (value out) false)
    else bind T (plus_assign T (value out) increment) (fun v =>
           add_loop T increment n (Build_CalcResult T v (success out)))).
Proof. reflexivity. Qed.

Lemma subtract_loop_S (decrement : T) (n : nat) (out : CalcResult T) :
  subtract_loop T decrement (S n) out =
  bind T (subtract_unsafe T decrement (value out)) (fun stop =>
    if stop then ret T (Build_CalcResult T (value out) false)
    else bind T (minus_assign T (value out) decrement) (fun v =>
           subtract_loop T decrement n (Build_CalcResult T v (success out)))).
Proof. reflexivity. Qed.

(** The loop body of [add_numbers], read off [add_loop]. *)
Lemma add_loop_result (increment : T) (n : nat) (out : CalcResult T) :
  result (add_loop T increment (S n) out) =
  if result (add_unsafe T increment (value out))
  then Build_CalcResult T (value out) false
  else result (add_loop T increment n
                 (Build_CalcResult T (T_add_assign T (value out) increment) (success out))).
Proof.
  rewrite add_loop_S, result_bind.
  destruct (result (add_unsafe T increment (value out))); [reflexivity|].
  rewrite result_bind. reflexivity.
Qed.

Lemma add_loop_trace (increment : T) (n : nat) (out : CalcResult T) :
  trace (add_loop T increment (S n) out) =
  trace (add_unsafe T increment (value out)) ++
  if result (add_unsafe T increment (value out))
  then []
  else PlusAssign (value out) increment ::
       trace (add_loop T increment n
                (Build_CalcResult T (T_add_assign T (value out) increment) (success out))).
Proof.
  rewrite add_loop_S, trace_bind.
  destruct (result (add_unsafe T increment (value out))); [reflexivity|].
  rewrite trace_bind. reflexivity.
Qed.

Lemma subtract_loop_result (decrement : T) (n : nat) (out : CalcResult T) :
  result (subtract_loop T decrement (S n) out) =
  if result (subtract_unsafe T decrement (value out))
  then Build_CalcResult T (value out) false
  else result (subtract_loop T decrement n
                 (Build_CalcResult T (T_sub_assign T (value out) decrement) (success out))).
Proof.
  rewrite subtract_loop_S, result_bind.
  destruct (result (subtract_unsafe T decrement (value out))); [reflexivity|].
  rewrite result_bind. reflexivity.
Qed.

Lemma subtract_loop_trace (decrement : T) (n : nat) (out : CalcResult T) :
  trace (subtract_loop T decrement (S n) out) =
  trace (subtract_unsafe T decrement (value out)) ++
  if result (subtract_unsafe T decrement (value out))
  then []
  else MinusAssign (value out) decrement ::
       trace (subtract_loop T decrement n
                (Build_CalcResult T (T_sub_assign T (value out) decrement) (success out))).
Proof.
  rewrite subtract_loop_S, trace_bind.
  destruct (result (subtract_unsafe T decrement (value out))); [reflexivity|].
  rewrite trace_bind. reflexivity.
Qed.

(** The pre-checks perform no accumulation. *)
Lemma add_unsafe_accumulations (increment cur : T) :
  accumulations (trace (add_unsafe T increment cur)) = 0%nat.
Proof.
  unfold add_unsafe.
  destruct (T_gt T increment (T_zero T)); [reflexivity|].
  destruct (T_lt T increment (T_zero T)); reflexivity.
Qed.

Lemma subtract_unsafe_accumulations (decrement cur : T) :
  accumulations (trace (subtract_unsafe T decrement cur)) = 0%nat.
Proof.
  unfold subtract_unsafe.
  destruct (T_gt T decrement (T_zero T)); [reflexivity|].
  destruct (T_lt T decrement (T_zero T)); reflexivity.
Qed.

Lemma accumulations_app (t1 t2 : list (arith_op T)) :
  accumulations (t1 ++ t2) = (accumulations t1 + accumulations t2)%nat.
Proof. unfold accumulations. rewrite filter_app, length_app. reflexivity. Qed.

Lemma accumulations_cons_assign (op : arith_op T) (t : list (arith_op T)) :
  is_accumulation T op = true -> accumulations (op :: t) = S (accumulations t).
Proof. unfold accumulations; simpl; intros ->; reflexivity. Qed.

(** [success] is cleared exactly when the loop is left early. *)
Lemma add_loop_flag (increment : T) (n : nat) :
  forall out : CalcResult T,
    success (result (add_loop T increment n out)) =
    success out && (accumulations (trace (add_loop T increment n out)) =? n)%nat.
Proof.
  induction n as [|n IH]; intros out.
  - simpl. rewrite andb_true_r. reflexivity.
  - rewrite add_loop_result, add_loop_trace, accumulations_app, add_unsafe_accumulations.
    destruct (result (add_unsafe T increment (value out))).
    + simpl. rewrite andb_false_r. reflexivity.
    + rewrite IH, accumulations_cons_assign by reflexivity. reflexivity.
Qed.

Lemma subtract_loop_flag (decrement : T) (n : nat) :
  forall out : CalcResult T,
    success (result (subtract_loop T decrement n out)) =
    success out && (accumulations (trace (subtract_loop T decrement n out)) =? n)%nat.
Proof.
  induction n as [|n IH]; intros out.
  - simpl. rewrite andb_true_r. reflexivity.
  - rewrite subtract_loop_result, subtract_loop_trace, accumulations_app,
      subtract_unsafe_accumulations.
    destruct (result (subtract_unsafe T decrement (value out))).
    + simpl. rewrite andb_false_r. reflexivity.
    + rewrite IH, accumulations_cons_assign by reflexivity. reflexivity.
Qed.

(** Once a run has been stopped, more iterations change nothing. *)
Lemma add_loop_stopped (increment : T) (n : nat) :
  forall (out : CalcResult T) (m : nat),
    success out = true ->
    success (result (add_loop T increment n out)) = false ->
    (n <= m)%nat ->
    add_loop T increment m out = add_loop T increment n out.
Proof.
  induction n as [|n IH]; intros out m Hout Hstop Hle.
  - simpl in Hstop. congruence.
  - destruct m as [|m]; [lia|].
    rewrite add_loop_result in Hstop.
    apply traced_eq.
    + rewrite !add_loop_result.
      destruct (result (add_unsafe T increment (value out))); [reflexivity|].
      f_equal. apply IH; [assumption|assumption|lia].
    + rewrite !add_loop_trace.
      destruct (result (add_unsafe T increment (value out))); [reflexivity|].
      do 3 f_equal. apply IH; [assumption|assumption|lia].
Qed.

Lemma subtract_loop_stopped (decrement : T) (n : nat) :
  forall (out : CalcResult T) (m : nat),
    success out = true ->
    success (result (subtract_loop T decrement n out)) = false ->
    (n <= m)%nat ->
    subtract_loop T decrement m out = subtract_loop T decrement n out.
Proof.
  induction n as [|n IH]; intros out m Hout Hstop Hle.
  - simpl in Hstop. congruence.
  - destruct m as [|m]; [lia|].
    rewrite subtract_loop_result in Hstop.
    apply traced_eq.
    + rewrite !subtract_loop_result.
      destruct (result (subtract_unsafe T decrement (value out))); [reflexivity|].
      f_equal. apply IH; [assumption|assumption|lia].
    + rewrite !subtract_loop_trace.
      destruct (result (subtract_unsafe T decrement (value out))); [reflexivity|].
      do 3 f_equal. apply IH; [assumption|assumption|lia].
Qed.

(** A run of [a + b] iterations whose first [a] iterations complete is the
    run of [b] iterations from where they arrive. *)
Lemma add_loop_split (increment : T) (a b : nat) :
  forall out : CalcResult T,
    success (result (add_loop T increment a out)) = true ->
    result (add_loop T increment (a + b) out) =
    result (add_loop T increment b (result (add_loop T increment a out))).
Proof.
  induction a as [|a IH]; intros out Hok.
  - reflexivity.
  - change (S a + b)%nat with (S (a + b)).
    rewrite add_loop_result in Hok |- *.
    rewrite (add_loop_result increment a out).
    destruct (result (add_unsafe T increment (value out))); [discriminate Hok|].
    apply IH, Hok.
Qed.

Lemma subtract_loop_split (decrement : T) (a b : nat) :
  forall out : CalcResult T,
    success (result (subtract_loop T decrement a out)) = true ->
    result (subtract_loop T decrement (a + b) out) =
    result (subtract_loop T decrement b (result (subtract_loop T decrement a out))).
Proof.
  induction a as [|a IH]; intros out Hok.
  - reflexivity.
  - change (S a + b)%nat with (S (a + b)).
    rewrite subtract_loop_result in Hok |- *.
    rewrite (subtract_loop_result decrement a out).
    destruct (result (subtract_unsafe T decrement (value out))); [discriminate Hok|].
    apply IH, Hok.
Qed.

Lemma CalcResult_eta (r : CalcResult T) :
  success r = true -> r = Build_CalcResult T (value r) true.
Proof. destruct r; simpl; intros ->; reflexivity. Qed.

(** No pre-check fires in [n] iterations: the loop runs to its end. *)
Lemma add_loop_all_safe (increment : T) (n : nat) :
  forall out : CalcResult T,
    (forall i, (i < n)%nat ->
               result (add_unsafe T increment (add_total T increment i (value out))) = false) ->
    result (add_loop T increment n out) =
    Build_CalcResult T (add_total T increment n (value out)) (success out).
Proof.
  induction n as [|n IH]; intros out Hsafe.
  - destruct out; reflexivity.
  - pose proof (Hsafe 0%nat ltac:(lia)) as H0. cbn [add_total] in H0.
    rewrite add_loop_result, H0.
    rewrite IH; [reflexivity|].
    intros i Hi. apply (Hsafe (S i)). lia.
Qed.

Lemma subtract_loop_all_safe (decrement : T) (n : nat) :
  forall out : CalcResult T,
    (forall i, (i < n)%nat ->
               result (subtract_unsafe T decrement
                         (subtract_total T decrement i (value out))) = false) ->
    result (subtract_loop T decrement n out) =
    Build_CalcResult T (subtract_total T decrement n (value out)) (success out).
Proof.
  induction n as [|n IH]; intros out Hsafe.
  - destruct out; reflexivity.
  - pose proof (Hsafe 0%nat ltac:(lia)) as H0. cbn [subtract_total] in H0.
    rewrite subtract_loop_result, H0.
    rewrite IH; [reflexivity|].
    intros i Hi. apply (Hsafe (S i)). lia.
Qed.



End Generic.

(** ** Facts about the integer types *)

Section IntFacts.

Variable ty : inttype.

Lemma half_modulus_pos : 0 < 2 ^ (Zpos (bits ty) - 1).
Proof. apply Z.pow_pos_nonneg; lia. Qed.

Lemma modulus_double : 2 ^ Zpos (bits ty) = 2 * 2 ^ (Zpos (bits ty) - 1).
Proof.
  replace (Zpos (bits ty)) with (Z.succ (Zpos (bits ty) - 1)) at 1 by lia.
  apply Z.pow_succ_r. lia.
Qed.

(** The two shapes of a range: [0 .. max] and [-max-1 .. max]. *)
Lemma int_limits :
  0 <= int_max ty /\
  (int_lowest ty = 0 \/ int_lowest ty = - int_max ty - 1).
Proof.
  unfold int_max, int_lowest.
  pose proof half_modulus_pos. pose proof modulus_double.
  destruct (is_signed ty); lia.
Qed.

Lemma in_rangeb_spec (z : Z) : in_rangeb ty z = true <-> in_range ty z.
Proof. unfold in_rangeb, in_range. rewrite andb_true_iff, !Z.leb_le. tauto. Qed.

Lemma in_rangeb_false (z : Z) : in_rangeb ty z = false <-> ~ in_range ty z.
Proof. rewrite <- in_rangeb_spec. destruct (in_rangeb ty z); intuition congruence. Qed.

Lemma wrap_in_range (z : Z) : in_range ty z -> wrap ty z = z.
Proof.
  unfold in_range, int_max, int_lowest, wrap.
  pose proof half_modulus_pos. pose proof modulus_double.
  destruct (is_signed ty); intros Hz.
  - rewrite Z.mod_small; lia.
  - apply Z.mod_small; lia.
Qed.

End IntFacts.

Lemma c_int_limits : int_lowest c_int = - 2147483648 /\ int_max c_int = 2147483647.
Proof. split; reflexivity. Qed.

Lemma promote_in_range (ty : inttype) (z : Z) :
  in_range ty z -> in_range (promote ty) z.
Proof.
  unfold promote.
  destruct (Pos.ltb_spec (bits ty) (bits c_int)) as [Hlt|Hge]; [|trivial].
  unfold in_range. destruct c_int_limits as [-> ->].
  unfold int_lowest, int_max. simpl in Hlt.
  assert (Hs : 2 ^ (Zpos (bits ty) - 1) <= 2 ^ 31) by (apply Z.pow_le_mono_r; lia).
  assert (Hu : 2 ^ Zpos (bits ty) <= 2 ^ 31) by (apply Z.pow_le_mono_r; lia).
  change (2 ^ 31) with 2147483648 in Hs, Hu.
  destruct (is_signed ty); lia.
Qed.

(** On values of the type, the arithmetic of the templates is exact as long
    as the mathematical result is a value of the type. *)
Lemma int_arith_exact (ty : inttype) (z : Z) :
  in_range ty z -> wrap ty (wrap (promote ty) z) = z.
Proof.
  intros Hz. rewrite (wrap_in_range (promote ty)) by (apply promote_in_range, Hz).
  apply wrap_in_range, Hz.
Qed.

Lemma int_guard_exact (ty : inttype) (z : Z) :
  in_range ty z -> wrap (promote ty) z = z.
Proof. intros Hz. apply wrap_in_range, promote_in_range, Hz. Qed.

#[local] Arguments wrap : simpl never.
#[local] Arguments int_max : simpl never.
#[local] Arguments int_lowest : simpl never.
#[local] Arguments promote : simpl never.

Ltac int_cases :=
  repeat match goal with
         | |- context [?a <? ?b] => destruct (Z.ltb_spec a b)
         | |- context [?a <=? ?b] => destruct (Z.leb_spec a b)
         end;
  simpl; try reflexivity; try lia.

Section IntSteps.

Variable ty : inttype.
Let T := IntType ty.

Lemma int_add_unsafe (increment cur : Z) :
  in_range ty increment -> in_range ty cur ->
  result (add_unsafe T increment cur) = negb (in_rangeb ty (cur + increment)) /\
  ops_in_range ty (trace (add_unsafe T increment cur)).
Proof.
  intros Hi Hc. unfold add_unsafe, in_rangeb, ops_in_range, T. simpl.
  destruct (int_limits ty) as [Hmax Hlow]. unfold in_range in Hi, Hc.
  destruct (Z.ltb_spec 0 increment) as [Hpos|Hnpos].
  - assert (Hb : in_range ty (int_max ty - increment)) by (unfold in_range; lia).
    unfold result, trace. simpl. rewrite (int_guard_exact ty _ Hb).
    split; [int_cases|]. constructor; [exact Hb|constructor].
  - destruct (Z.ltb_spec increment 0) as [Hneg|Hzero].
    + assert (Hb : in_range ty (int_lowest ty - increment)) by (unfold in_range; lia).
      unfold result, trace. simpl. rewrite (int_guard_exact ty _ Hb).
      split; [int_cases|]. constructor; [exact Hb|constructor].
    + simpl. split; [int_cases|constructor].
Qed.

Lemma int_subtract_unsafe (decrement cur : Z) :
  in_range ty decrement -> in_range ty cur ->
  result (subtract_unsafe T decrement cur) = negb (in_rangeb ty (cur - decrement)) /\
  ops_in_range ty (trace (subtract_unsafe T decrement cur)).
Proof.
  intros Hi Hc. unfold subtract_unsafe, in_rangeb, ops_in_range, T. simpl.
  destruct (int_limits ty) as [Hmax Hlow]. unfold in_range in Hi, Hc.
  destruct (Z.ltb_spec 0 decrement) as [Hpos|Hnpos].
  - assert (Hb : in_range ty (int_lowest ty + decrement)) by (unfold in_range; lia).
    unfold result, trace. simpl. rewrite (int_guard_exact ty _ Hb).
    split; [int_cases|]. constructor; [exact Hb|constructor].
  - destruct (Z.ltb_spec decrement 0) as [Hneg|Hzero].
    + assert (Hb : in_range ty (int_max ty + decrement)) by (unfold in_range; lia).
      unfold result, trace. simpl. rewrite (int_guard_exact ty _ Hb).
      split; [int_cases|]. constructor; [exact Hb|constructor].
    + simpl. split; [int_cases|constructor].
Qed.

End IntSteps.

Section IntLoops.

Variable ty : inttype.
Let T := IntType ty.

Variable step : Z.
Hypothesis step_in_range : in_range ty step.

(** One iteration of [add_numbers] on a value of the type: either the sum
    is a value of the type and the iteration adds exactly, or it is not and
    the loop is left. *)
Lemma int_add_iteration (n : nat) (out : CalcResult T) :
  in_range ty (value out) ->
  (in_range ty (value out + step) /\
   result (add_loop T step (S n) out) =
     result (add_loop T step n (Build_CalcResult T (value out + step) (success out))) /\
   trace (add_loop T step (S n) out) =
     trace (add_unsafe T step (value out)) ++
     PlusAssign (value out) step ::
     trace (add_loop T step n (Build_CalcResult T (value out + step) (success out))))
  \/
  (~ in_range ty (value out + step) /\
   result (add_loop T step (S n) out) = Build_CalcResult T (value out) false /\
   trace (add_loop T step (S n) out) = trace (add_unsafe T step (value out))).
Proof.
  intros Hv.
  destruct (int_add_unsafe ty step (value out) step_in_range Hv) as [Hstop _].
  fold T in Hstop.
  rewrite add_loop_result, add_loop_trace, Hstop.
  destruct (in_rangeb ty (value out + step)) eqn:Hr; simpl.
  - left. apply in_rangeb_spec in Hr.
    rewrite (int_arith_exact ty _ Hr). auto.
  - right. apply in_rangeb_false in Hr. rewrite app_nil_r. auto.
Qed.

Lemma int_subtract_iteration (n : nat) (out : CalcResult T) :
  in_range ty (value out) ->
  (in_range ty (value out - step) /\
   result (subtract_loop T step (S n) out) =
     result (subtract_loop T step n (Build_CalcResult T (value out - step) (success out))) /\
   trace (subtract_loop T step (S n) out) =
     trace (subtract_unsafe T step (value out)) ++
     MinusAssign (value out) step ::
     trace (subtract_loop T step n (Build_CalcResult T (value out - step) (success out))))
  \/
  (~ in_range ty (value out - step) /\
   result (subtract_loop T step (S n) out) = Build_CalcResult T (value out) false /\
   trace (subtract_loop T step (S n) out) = trace (subtract_unsafe T step (value out))).
Proof.
  intros Hv.
  destruct (int_subtract_unsafe ty step (value out) step_in_range Hv) as [Hstop _].
  fold T in Hstop.
  rewrite subtract_loop_result, subtract_loop_trace, Hstop.
  destruct (in_rangeb ty (value out - step)) eqn:Hr; simpl.
  - left. apply in_rangeb_spec in Hr.
    rewrite (int_arith_exact ty _ Hr). auto.
  - right. apply in_rangeb_false in Hr. rewrite app_nil_r. auto.
Qed.

(** All partial sums are values of the type: the loop runs to its end. *)
Lemma int_add_loop_complete (n : nat) :
  forall out : CalcResult T,
    (forall i, 0 <= i <= Z.of_nat n -> in_range ty (value out + step * i)) ->
    result (add_loop T step n out) =
    Build_CalcResult T (value out + step * Z.of_nat n) (success out).
Proof.
  induction n as [|n IH]; intros out Hsums.
  - destruct out as [v s]. simpl. f_equal. lia.
  - assert (Hv : in_range ty (value out))
      by (replace (value out) with (value out + step * 0) by lia; apply Hsums; lia).
    assert (Hnext : in_range ty (value out + step))
      by (replace (value out + step) with (value out + step * 1) by lia; apply Hsums; lia).
    destruct (int_add_iteration n out Hv) as [(_ & -> & _)|(Hout & _)]; [|contradiction].
    rewrite IH; simpl.
    + f_equal. lia.
    + intros i Hi. replace (value out + step + step * i) with (value out + step * (i + 1)) by lia.
      apply Hsums. lia.
Qed.

Lemma int_subtract_loop_complete (n : nat) :
  forall out : CalcResult T,
    (forall i, 0 <= i <= Z.of_nat n -> in_range ty (value out - step * i)) ->
    result (subtract_loop T step n out) =
    Build_CalcResult T (value out - step * Z.of_nat n) (success out).
Proof.
  induction n as [|n IH]; intros out Hsums.
  - destruct out as [v s]. simpl. f_equal. lia.
  - assert (Hv : in_range ty (value out))
      by (replace (value out) with (value out - step * 0) by lia; apply Hsums; lia).
    assert (Hnext : in_range ty (value out - step))
      by (replace (value out - step) with (value out - step * 1) by lia; apply Hsums; lia).
    destruct (int_subtract_iteration n out Hv) as [(_ & -> & _)|(Hout & _)]; [|contradiction].
    rewrite IH; simpl.
    + f_equal. lia.
    + intros i Hi. replace (value out - step - step * i) with (value out - step * (i + 1)) by lia.
      apply Hsums. lia.
Qed.

(** The partial sums are values of the type up to the [k]-th, and the next
    one is not: the loop is left in iteration [k], after [k] additions. *)
Lemma int_add_loop_first_violation (k : nat) :
  forall (n : nat) (out : CalcResult T),
    (k < n)%nat ->
    (forall i, 0 <= i <= Z.of_nat k -> in_range ty (value out + step * i)) ->
    ~ in_range ty (value out + step * (Z.of_nat k + 1)) ->
    result (add_loop T step n out) =
      Build_CalcResult T (value out + step * Z.of_nat k) false /\
    accumulations (trace (add_loop T step n out)) = k.
Proof.
  induction k as [|k IH]; intros n out Hlt Hsums Hbad;
    (destruct n as [|n]; [lia|]);
    assert (Hv : in_range ty (value out))
      by (replace (value out) with (value out + step * 0) by lia; apply Hsums; lia).
  - replace (value out + step * (Z.of_nat 0 + 1)) with (value out + step) in Hbad by lia.
    destruct (int_add_iteration n out Hv) as [(Hok & _)|(_ & -> & ->)]; [contradiction|].
    split; [f_equal; simpl; lia|apply add_unsafe_accumulations].
  - assert (Hnext : in_range ty (value out + step))
      by (replace (value out + step) with (value out + step * 1) by lia; apply Hsums; lia).
    destruct (int_add_iteration n out Hv) as [(_ & -> & ->)|(Hout & _)]; [|contradiction].
    destruct (IH n (Build_CalcResult T (value out + step) (success out))) as [-> Hacc].
    + lia.
    + simpl. intros i Hi.
      replace (value out + step + step * i) with (value out + step * (i + 1)) by lia.
      apply Hsums. lia.
    + simpl. intros Hin. apply Hbad.
      replace (value out + step * (Z.of_nat (S k) + 1))
        with (value out + step + step * (Z.of_nat k + 1)) by lia.
      exact Hin.
    + split; [simpl; f_equal; lia|].
      rewrite accumulations_app, add_unsafe_accumulations,
        accumulations_cons_assign by reflexivity.
      simpl. f_equal. exact Hacc.
Qed.

Lemma int_subtract_loop_first_violation (k : nat) :
  forall (n : nat) (out : CalcResult T),
    (k < n)%nat ->
    (forall i, 0 <= i <= Z.of_nat k -> in_range ty (value out - step * i)) ->
    ~ in_range ty (value out - step * (Z.of_nat k + 1)) ->
    result (subtract_loop T step n out) =
      Build_CalcResult T (value out - step * Z.of_nat k) false /\
    accumulations (trace (subtract_loop T step n out)) = k.
Proof.
  induction k as [|k IH]; intros n out Hlt Hsums Hbad;
    (destruct n as [|n]; [lia|]);
    assert (Hv : in_range ty (value out))
      by (replace (value out) with (value out - step * 0) by lia; apply Hsums; lia).
  - replace (value out - step * (Z.of_nat 0 + 1)) with (value out - step) in Hbad by lia.
    destruct (int_subtract_iteration n out Hv) as [(Hok & _)|(_ & -> & ->)]; [contradiction|].
    split; [f_equal; simpl; lia|apply subtract_unsafe_accumulations].
  - assert (Hnext : in_range ty (value out - step))
      by (replace (value out - step) with (value out - step * 1) by lia; apply Hsums; lia).
    destruct (int_subtract_iteration n out Hv) as [(_ & -> & ->)|(Hout & _)]; [|contradiction].
    destruct (IH n (Build_CalcResult T (value out - step) (success out))) as [-> Hacc].
    + lia.
    + simpl. intros i Hi.
      replace (value out - step - step * i) with (value out - step * (i + 1)) by lia.
      apply Hsums. lia.
    + simpl. intros Hin. apply Hbad.
      replace (value out - step * (Z.of_nat (S k) + 1))
        with (value out - step - step * (Z.of_nat k + 1)) by lia.
      exact Hin.
    + split; [simpl; f_equal; lia|].
      rewrite accumulations_app, subtract_unsafe_accumulations,
        accumulations_cons_assign by reflexivity.
      simpl. f_equal. exact Hacc.
Qed.

(** The value returned is one of the partial sums, reached through values
    of the type only. *)
Lemma int_add_loop_partial_sum (n : nat) :
  forall out : CalcResult T,
    in_range ty (value out) ->
    exists i : nat,
      (i <= n)%nat /\
      value (result (add_loop T step n out)) = value out + step * Z.of_nat i /\
      forall j, 0 <= j <= Z.of_nat i -> in_range ty (value out + step * j).
Proof.
  induction n as [|n IH]; intros out Hv.
  - exists 0%nat. split; [lia|]. split; [simpl; lia|].
    intros j Hj. assert (j = 0) as -> by lia.
      replace (value out + step * 0) with (value out) by lia. exact Hv.
  - destruct (int_add_iteration n out Hv) as [(Hok & -> & _)|(_ & -> & _)].
    + destruct (IH (Build_CalcResult T (value out + step) (success out)) Hok)
        as (i & Hi & Hval & Hsums).
      exists (S i). split; [lia|]. split; [rewrite Hval; simpl; lia|].
      intros j Hj. destruct (Z.eq_dec j 0) as [->|Hj0].
      * replace (value out + step * 0) with (value out) by lia. exact Hv.
      * replace (value out + step * j) with (value out + step + step * (j - 1)) by lia.
        apply Hsums. lia.
    + exists 0%nat. split; [lia|]. split; [simpl; lia|].
      intros j Hj. assert (j = 0) as -> by lia.
      replace (value out + step * 0) with (value out) by lia. exact Hv.
Qed.

Lemma int_subtract_loop_partial_sum (n : nat) :
  forall out : CalcResult T,
    in_range ty (value out) ->
    exists i : nat,
      (i <= n)%nat /\
      value (result (subtract_loop T step n out)) = value out - step * Z.of_nat i /\
      forall j, 0 <= j <= Z.of_nat i -> in_range ty (value out - step * j).
Proof.
  induction n as [|n IH]; intros out Hv.
  - exists 0%nat. split; [lia|]. split; [simpl; lia|].
    intros j Hj. assert (j = 0) as -> by lia.
      replace (value out - step * 0) with (value out) by lia. exact Hv.
  - destruct (int_subtract_iteration n out Hv) as [(Hok & -> & _)|(_ & -> & _)].
    + destruct (IH (Build_CalcResult T (value out - step) (success out)) Hok)
        as (i & Hi & Hval & Hsums).
      exists (S i). split; [lia|]. split; [rewrite Hval; simpl; lia|].
      intros j Hj. destruct (Z.eq_dec j 0) as [->|Hj0].
      * replace (value out - step * 0) with (value out) by lia. exact Hv.
      * replace (value out - step * j) with (value out - step - step * (j - 1)) by lia.
        apply Hsums. lia.
    + exists 0%nat. split; [lia|]. split; [simpl; lia|].
      intros j Hj. assert (j = 0) as -> by lia.
      replace (value out - step * 0) with (value out) by lia. exact Hv.
Qed.

(** No operation of the loop has a result outside the type. *)
Lemma int_add_loop_trace_in_range (n : nat) :
  forall out : CalcResult T,
    in_range ty (value out) ->
    ops_in_range ty (trace (add_loop T step n out)).
Proof.
  induction n as [|n IH]; intros out Hv.
  - constructor.
  - destruct (int_add_unsafe ty step (value out) step_in_range Hv) as [_ Hguard].
    destruct (int_add_iteration n out Hv) as [(Hok & _ & ->)|(_ & _ & ->)]; [|exact Hguard].
    apply Forall_app. split; [exact Hguard|].
    constructor; [exact Hok|]. apply IH. exact Hok.
Qed.

Lemma int_subtract_loop_trace_in_range (n : nat) :
  forall out : CalcResult T,
    in_range ty (value out) ->
    ops_in_range ty (trace (subtract_loop T step n out)).
Proof.
  induction n as [|n IH]; intros out Hv.
  - constructor.
  - destruct (int_subtract_unsafe ty step (value out) step_in_range Hv) as [_ Hguard].
    destruct (int_subtract_iteration n out Hv) as [(Hok & _ & ->)|(_ & _ & ->)]; [|exact Hguard].
    apply Forall_app. split; [exact Hguard|].
    constructor; [exact Hok|]. apply IH. exact Hok.
Qed.

End IntLoops.

(** ** Subtracting a step and adding its negation *)

Section Symmetry.

Variable T : NumType.
Variables step nstep : T.

Hypothesis gt_neg : T_gt T step (T_zero T) = T_lt T nstep (T_zero T).
Hypothesis lt_neg : T_lt T step (T_zero T) = T_gt T nstep (T_zero T).
Hypothesis gt_lt_excl :
  T_gt T step (T_zero T) = true -> T_lt T step (T_zero T) = false.
Hypothesis add_neg : forall a, T_add T a step = T_sub T a nstep.
Hypothesis sub_assign_neg : forall a, T_sub_assign T a step = T_add_assign T a nstep.

Lemma subtract_unsafe_neg (cur : T) :
  result (subtract_unsafe T step cur) = result (add_unsafe T nstep cur).
Proof.
  unfold subtract_unsafe, add_unsafe. rewrite <- gt_neg, <- lt_neg.
  destruct (T_gt T step (T_zero T)) eqn:Hgt.
  - rewrite (gt_lt_excl eq_refl). unfold result. simpl. rewrite add_neg. reflexivity.
  - destruct (T_lt T step (T_zero T)); [|reflexivity].
    unfold result. simpl. rewrite add_neg. reflexivity.
Qed.

Lemma subtract_loop_neg (n : nat) :
  forall out : CalcResult T,
    result (subtract_loop T step n out) = result (add_loop T nstep n out).
Proof.
  induction n as [|n IH]; intros out; [reflexivity|].
  rewrite subtract_loop_result, add_loop_result, subtract_unsafe_neg, sub_assign_neg.
  destruct (result (add_unsafe T nstep (value out))); [reflexivity|apply IH].
Qed.

End Symmetry.

(** ** Facts about the floating-point types *)

Section FloatFacts.

Variables prec emax : Z.

Lemma SFsub_opp_r (a b : spec_float) :
  SFsub prec emax a (SFopp b) = SFadd prec emax a b.
Proof.
  destruct a as [sa|sa| |sa ma ea], b as [sb|sb| |sb mb eb]; simpl;
    try reflexivity;
    try (destruct sa, sb; reflexivity);
    destruct sb; reflexivity.
Qed.

Lemma SFadd_opp_r (a b : spec_float) :
  SFadd prec emax a (SFopp b) = SFsub prec emax a b.
Proof.
  destruct a as [sa|sa| |sa ma ea], b as [sb|sb| |sb mb eb]; simpl;
    try reflexivity;
    try (destruct sa, sb; reflexivity);
    destruct sb; reflexivity.
Qed.

Lemma SFltb_opp_zero (a : spec_float) :
  SFltb (S754_zero false) a = SFltb (SFopp a) (S754_zero false).
Proof. destruct a as [s|s| |s m e]; try reflexivity; destruct s; reflexivity. Qed.

Lemma SFltb_zero_opp (a : spec_float) :
  SFltb a (S754_zero false) = SFltb (S754_zero false) (SFopp a).
Proof. destruct a as [s|s| |s m e]; try reflexivity; destruct s; reflexivity. Qed.

Lemma SFltb_zero_excl (a : spec_float) :
  SFltb (S754_zero false) a = true -> SFltb a (S754_zero false) = false.
Proof.
  destruct a as [s|s| |s m e]; try reflexivity; destruct s; cbv; congruence.
Qed.

Lemma same_number_trans (a b c : spec_float) :
  same_number a b -> same_number b c -> same_number a c.
Proof.
  unfold same_number.
  intros [Hab|(sa & sb & Ha & Hb)] [Hbc|(sb' & sc & Hb' & Hc)]; subst; eauto.
Qed.

Lemma SFadd_zero_r (a : spec_float) (s : bool) :
  same_number (SFadd prec emax a (S754_zero s)) a.
Proof.
  destruct a as [sa|sa| |sa ma ea]; simpl; try (left; reflexivity).
  right. destruct sa, s; eauto.
Qed.

Lemma SFsub_zero_r (a : spec_float) (s : bool) :
  same_number (SFsub prec emax a (S754_zero s)) a.
Proof.
  destruct a as [sa|sa| |sa ma ea]; simpl; try (left; reflexivity).
  right. destruct sa, s; eauto.
Qed.

Let F := Binary prec emax.

Lemma float_add_loop_zero (s : bool) (n : nat) :
  forall out : CalcResult F,
    success (result (add_loop F (S754_zero s) n out)) = success out /\
    same_number (value (result (add_loop F (S754_zero s) n out))) (value out).
Proof.
  induction n as [|n IH]; intros out.
  - split; [reflexivity|left; reflexivity].
  - rewrite add_loop_result.
    replace (result (add_unsafe F (S754_zero s) (value out))) with false
      by (destruct s; reflexivity).
    destruct (IH (Build_CalcResult F (T_add_assign F (value out) (S754_zero s)) (success out)))
      as [Hs Hv].
    split; [exact Hs|].
    eapply same_number_trans; [exact Hv|apply SFadd_zero_r].
Qed.

Lemma float_subtract_loop_zero (s : bool) (n : nat) :
  forall out : CalcResult F,
    success (result (subtract_loop F (S754_zero s) n out)) = success out /\
    same_number (value (result (subtract_loop F (S754_zero s) n out))) (value out).
Proof.
  induction n as [|n IH]; intros out.
  - split; [reflexivity|left; reflexivity].
  - rewrite subtract_loop_result.
    replace (result (subtract_unsafe F (S754_zero s) (value out))) with false
      by (destruct s; reflexivity).
    destruct (IH (Build_CalcResult F (T_sub_assign F (value out) (S754_zero s)) (success out)))
      as [Hs Hv].
    split; [exact Hs|].
    eapply same_number_trans; [exact Hv|apply SFsub_zero_r].
Qed.

End FloatFacts.

(** ** The test drivers on the integer types *)

Section IntDrivers.

Variable ty : inttype.
Hypothesis byte_or_wider : (8 <= bits ty)%positive.
Local Abbreviation T := (IntType ty).

Lemma int_max_large : 127 <= int_max ty.
Proof.
  unfold int_max.
  assert (Hs : 2 ^ 7 <= 2 ^ (Zpos (bits ty) - 1)) by (apply Z.pow_le_mono_r; lia).
  assert (Hu : 2 ^ 7 <= 2 ^ Zpos (bits ty)) by (apply Z.pow_le_mono_r; lia).
  change (2 ^ 7) with 128 in Hs, Hu.
  destruct (is_signed ty); lia.
Qed.

(** [numeric_limits<T>::max() / steps] with [steps = 5]. *)
Lemma int_driver_step :
  T_div_steps T (T_max T) 5 = int_max ty / 5 /\ in_range ty (int_max ty / 5).
Proof.
  pose proof int_max_large as Hmax.
  destruct (int_limits ty) as [_ Hlow].
  assert (Hq : in_range ty (int_max ty / 5)).
  { unfold in_range.
    pose proof (Z.div_pos (int_max ty) 5).
    pose proof (Z.mul_div_le (int_max ty) 5). lia. }
  split; [|exact Hq].
  simpl. change (Z.pos (Pos.of_succ_nat 4)) with 5.
  rewrite Z.quot_div_nonneg by lia.
  apply wrap_in_range, Hq.
Qed.

Lemma int_driver_step_bounds :
  5 * (int_max ty / 5) <= int_max ty < 6 * (int_max ty / 5).
Proof.
  pose proof int_max_large as Hmax.
  pose proof (Z.div_mod (int_max ty) 5).
  pose proof (Z.mod_pos_bound (int_max ty) 5).
  assert (25 <= 5 * (int_max ty / 5)) by lia.
  lia.
Qed.

(** The second call of [test_overflow] is stopped in its sixth iteration. *)
Lemma test_overflow_int :
  r2 (test_overflow T) = Build_CalcResult T (5 * (int_max ty / 5)) false.
Proof.
  destruct int_driver_step as [Hstep Hq].
  pose proof int_driver_step_bounds as Hb.
  destruct (int_limits ty) as [_ Hlow].
  unfold test_overflow, r2. cbv zeta. change (5 + 1)%nat with 6%nat.
  unfold add_numbers, add_numbers_traced. rewrite Hstep.
  destruct (int_add_loop_first_violation ty (int_max ty / 5) Hq 5 6
              (Build_CalcResult T (T_zero T) true)) as [-> _].
  - lia.
  - simpl. unfold in_range. intros i Hi. nia.
  - simpl. unfold in_range. lia.
  - cbn [value T_zero T_max IntType]. f_equal. lia.
Qed.

(** On an unsigned type the second call of [test_underflow] is stopped in
    its sixth iteration. *)
Lemma test_underflow_unsigned :
  is_signed ty = false ->
  r2 (test_underflow T) = Build_CalcResult T (int_max ty - 5 * (int_max ty / 5)) false.
Proof.
  intros Hu.
  destruct int_driver_step as [Hstep Hq].
  pose proof int_driver_step_bounds as Hb.
  assert (Hlow : int_lowest ty = 0) by (unfold int_lowest; rewrite Hu; reflexivity).
  unfold test_underflow, r2. cbv zeta. change (5 + 1)%nat with 6%nat.
  unfold subtract_numbers, subtract_numbers_traced. rewrite Hstep.
  destruct (int_subtract_loop_first_violation ty (int_max ty / 5) Hq 5 6
              (Build_CalcResult T (T_max T) true)) as [-> _].
  - lia.
  - simpl. unfold in_range. intros i Hi. nia.
  - simpl. unfold in_range. lia.
  - cbn [value T_zero T_max IntType]. f_equal. lia.
Qed.

(** On a signed type all six subtractions of the second call of
    [test_underflow] stay in the type: from [max], six times [max / 5]
    lead to about [- max / 5]. *)
Lemma test_underflow_signed :
  is_signed ty = true ->
  r2 (test_underflow T) = Build_CalcResult T (int_max ty - 6 * (int_max ty / 5)) true.
Proof.
  intros Hs.
  destruct int_driver_step as [Hstep Hq].
  pose proof int_driver_step_bounds as Hb.
  assert (Hlow : int_lowest ty = - int_max ty - 1).
  { unfold int_lowest, int_max. rewrite Hs. lia. }
  unfold test_underflow, r2. cbv zeta. change (5 + 1)%nat with 6%nat.
  unfold subtract_numbers, subtract_numbers_traced. rewrite Hstep.
  rewrite (int_subtract_loop_complete ty (int_max ty / 5) Hq).
  - cbn [value T_zero T_max IntType]. f_equal. lia.
  - simpl. unfold in_range. intros i Hi. nia.
Qed.

End IntDrivers.

(** The integer and floating-point types [do_underflow_tests] instantiates
    [test_underflow] with ([long] and [wchar_t] are, depending on the
    platform, one of the integer types below): the second call is stopped on
    the unsigned types only. *)
Example do_underflow_tests_second_runs :
  map (fun ty => success (r2 (test_underflow (IntType ty))))
      [c_char; c_short; c_int; c_longlong; c_uchar; c_ushort; c_uint; c_ulonglong] =
    [true; true; true; true; false; false; false; false] /\
  success (r2 (test_underflow c_float)) = true /\
  success (r2 (test_underflow c_double)) = true.
Proof. repeat split; reflexivity. Qed.

Example do_overflow_tests_second_runs :
  map (fun ty => success (r2 (test_overflow (IntType ty))))
      [c_char; c_short; c_int; c_longlong; c_uchar; c_ushort; c_uint; c_ulonglong] =
    [false; false; false; false; false; false; false; false] /\
  success (r2 (test_overflow c_float)) = false /\
  success (r2 (test_overflow c_double)) = false.
Proof. repeat split; reflexivity. Qed.

(** An accumulation that overflows on [float]: from [max - 2^104] with the
    step [1.5 * 2^104], one and a half units in the last place of [max]. *)
Example float_accumulation_overflows :
  add_numbers c_float (S754_finite false 16777214 104) (S754_finite false 12582912 81) 1 =
  Build_CalcResult c_float (S754_infinity false) true.
Proof. reflexivity. Qed.

(** ** The integer instantiations of the templates *)

(** X3, the value returned on an integer type.  The value returned by either
    template on an integer type is a partial sum [start +/- step * i],
    [i <= count], and it and all the partial sums before it are values of
    the type. *)
Lemma int_value_is_partial_sum (ty : inttype) (start step : Z) (count : nat) :
  in_range ty start -> in_range ty step ->
  (exists i : nat,
      (i <= count)%nat /\
      value (add_numbers (IntType ty) start step count) = start + step * Z.of_nat i /\
      forall j, 0 <= j <= Z.of_nat i -> in_range ty (start + step * j)) /\
  (exists i : nat,
      (i <= count)%nat /\
      value (subtract_numbers (IntType ty) start step count) = start - step * Z.of_nat i /\
      forall j, 0 <= j <= Z.of_nat i -> in_range ty (start - step * j)).
Proof.
  intros Hstart Hstep. split.
  - apply (int_add_loop_partial_sum ty step Hstep count
             (Build_CalcResult (IntType ty) start true) Hstart).
  - apply (int_subtract_loop_partial_sum ty step Hstep count
             (Build_CalcResult (IntType ty) start true) Hstart).
Qed.

(** X4, no operation leaves an integer type.  No operation either template
    performs on an integer type, in a pre-check or in an accumulation, has a
    mathematical result outside the type: no operation wraps around, and
    none is undefined. *)
Lemma int_trace_in_range (ty : inttype) (start step : Z) (count : nat) :
  in_range ty start -> in_range ty step ->
  ops_in_range ty (trace (add_numbers_traced (IntType ty) start step count)) /\
  ops_in_range ty (trace (subtract_numbers_traced (IntType ty) start step count)).
Proof.
  intros Hstart Hstep. split.
  - apply (int_add_loop_trace_in_range ty step Hstep count
             (Build_CalcResult (IntType ty) start true) Hstart).
  - apply (int_subtract_loop_trace_in_range ty step Hstep count
             (Build_CalcResult (IntType ty) start true) Hstart).
Qed.

(** ** The properties of the specification *)

(** Range facts about literals. *)
Ltac concrete_range :=
  intros; unfold in_range in *;
  repeat match goal with
         | |- context [int_lowest ?ty] =>
             let l := eval vm_compute in (int_lowest ty) in change (int_lowest ty) with l
         | |- context [int_max ?ty] =>
             let m := eval vm_compute in (int_max ty) in change (int_max ty) with m
         end;
  lia.

(** X13, exactness on the integer types.  For every integer type, when all
    the partial sums [start + step * i], [i = 0 .. count], are values of the
    type,
    [add_numbers] returns [success = true] and [value = start + step * count];
    the same holds for [subtract_numbers] and the partial sums
    [start - step * i].  For every numeric type, when the pre-check finds no
    step unsafe in the [count] iterations, the routine returns
    [success = true] and the total of [count] accumulations as the type
    computes them (rounded, on a floating-point type). *)
Theorem no_overflow_exactness :
  (forall (ty : inttype) (start step : Z) (count : nat),
      in_range ty step ->
      ((forall i, 0 <= i <= Z.of_nat count -> in_range ty (start + step * i)) ->
       add_numbers (IntType ty) start step count =
       Build_CalcResult (IntType ty) (start + step * Z.of_nat count) true) /\
      ((forall i, 0 <= i <= Z.of_nat count -> in_range ty (start - step * i)) ->
       subtract_numbers (IntType ty) start step count =
       Build_CalcResult (IntType ty) (start - step * Z.of_nat count) true)) /\
  (forall (T : NumType) (start step : T) (count : nat),
      ((forall i, (i < count)%nat ->
                  result (add_unsafe T step (add_total T step i start)) = false) ->
       add_numbers T start step count =
       Build_CalcResult T (add_total T step count start) true) /\
      ((forall i, (i < count)%nat ->
                  result (subtract_unsafe T step (subtract_total T step i start)) = false) ->
       subtract_numbers T start step count =
       Build_CalcResult T (subtract_total T step count start) true)).
Proof.
  split.
  - intros ty start step count Hstep. split; intros Hsums.
    + apply (int_add_loop_complete ty step Hstep count
               (Build_CalcResult (IntType ty) start true) Hsums).
    + apply (int_subtract_loop_complete ty step Hstep count
               (Build_CalcResult (IntType ty) start true) Hsums).
  - intros T start step count. split; intros Hsafe.
    + apply (add_loop_all_safe T step count (Build_CalcResult T start true) Hsafe).
    + apply (subtract_loop_all_safe T step count (Build_CalcResult T start true) Hsafe).
Qed.

Lemma no_overflow_exactness_witness :
  (in_range c_int 429496729 /\
   (forall i, 0 <= i <= Z.of_nat 5 -> in_range c_int (0 + 429496729 * i)) /\
   (forall i, 0 <= i <= Z.of_nat 5 -> in_range c_int (2147483647 - 429496729 * i)) /\
   add_numbers (IntType c_int) 0 429496729 5 =
     Build_CalcResult (IntType c_int) (0 + 429496729 * Z.of_nat 5) true /\
   subtract_numbers (IntType c_int) 2147483647 429496729 5 =
     Build_CalcResult (IntType c_int) (2147483647 - 429496729 * Z.of_nat 5) true) /\
  ((forall i, (i < 5)%nat ->
              result (subtract_unsafe c_double (T_div_steps c_double (T_max c_double) 5)
                        (subtract_total c_double (T_div_steps c_double (T_max c_double) 5) i
                           (T_max c_double))) = false) /\
   subtract_numbers c_double (T_max c_double) (T_div_steps c_double (T_max c_double) 5) 5 =
     Build_CalcResult c_double
       (subtract_total c_double (T_div_steps c_double (T_max c_double) 5) 5 (T_max c_double))
       true).
Proof.
  assert (Hstep : in_range c_int 429496729) by concrete_range.
  assert (Hadd : forall i, 0 <= i <= Z.of_nat 5 -> in_range c_int (0 + 429496729 * i))
    by concrete_range.
  assert (Hsub : forall i, 0 <= i <= Z.of_nat 5 -> in_range c_int (2147483647 - 429496729 * i))
    by concrete_range.
  split.
  - split; [exact Hstep|]. split; [exact Hadd|]. split; [exact Hsub|]. split.
    + exact (proj1 (proj1 no_overflow_exactness c_int 0 429496729 5%nat Hstep) Hadd).
    + exact (proj2 (proj1 no_overflow_exactness c_int 2147483647 429496729 5%nat Hstep) Hsub).
  - assert (Hsafe : forall i, (i < 5)%nat ->
              result (subtract_unsafe c_double (T_div_steps c_double (T_max c_double) 5)
                        (subtract_total c_double (T_div_steps c_double (T_max c_double) 5) i
                           (T_max c_double))) = false).
    { intros i Hi. destruct i as [|[|[|[|[|i]]]]]; try reflexivity. lia. }
    split; [exact Hsafe|].
    exact (proj2 (proj2 no_overflow_exactness c_double (T_max c_double)
                    (T_div_steps c_double (T_max c_double) 5) 5%nat) Hsafe).
Defined.

(** C1, no-overflow exactness.  On [double], from the start value
    [far_start = max - 7 * 2^971] with the step [ulp_and_half = 1.5 * 2^971]
    and [count = 4], every partial sum [start + step * i], [i = 0 .. 4], lies
    in the finite range of the type and the last one, [start + step * 4], is
    the value [near_max] of the type; yet [add_numbers] returns
    [success = true] with positive infinity.  No pre-check fires: each
    addition is a tie that is rounded up, the running value reaches
    [near_max] after three additions, and the fourth pre-check and addition
    are those of the run from [near_max].  [subtract_numbers] does the same
    downwards from [- far_start]. *)
Theorem double_sums_in_range_overflow :
  valid_binary 53 1024 far_start = true /\ is_finite far_start = true /\
  valid_binary 53 1024 ulp_and_half = true /\ is_finite ulp_and_half = true /\
  (forall i, 0 <= i <= 4 ->
             finite_value (T_lowest c_double)
             <= finite_value far_start + finite_value ulp_and_half * i
             <= finite_value (T_max c_double)) /\
  finite_value far_start + finite_value ulp_and_half * 4 = finite_value near_max /\
  add_total c_double ulp_and_half 3 far_start = near_max /\
  add_numbers c_double far_start ulp_and_half 4 =
    Build_CalcResult c_double (S754_infinity false) true /\
  accumulations (trace (add_numbers_traced c_double far_start ulp_and_half 4)) = 4%nat /\
  subtract_numbers c_double (T_neg c_double far_start) ulp_and_half 4 =
    Build_CalcResult c_double (S754_infinity true) true.
Proof.
  split; [reflexivity|]. split; [reflexivity|].
  split; [reflexivity|]. split; [reflexivity|]. split.
  - intros i Hi.
    assert (Hpow : 2 ^ 971 = 2 ^ 52 * 2 ^ 919) by (rewrite <- Z.pow_add_r by lia; reflexivity).
    assert (Hpos : 0 < 2 ^ 919) by (apply Z.pow_pos_nonneg; lia).
    unfold finite_value, far_start, ulp_and_half, T_lowest, T_max, c_double, Binary,
      SFmax_float, SFopp, cond_Zopp.
    change (Z.pos (Pos.iter xO xH (Z.to_pos 53) - 1)) with 9007199254740991.
    change (1024 - 53) with 971.
    rewrite Hpow. change (2 ^ 52) with 4503599627370496. cbn [negb].
    clear Hpow. set (P := 2 ^ 919) in *. clearbody P.
    assert (Hi' : 0 <= P * i <= 4 * P) by nia.
    lia.
  - split; [|repeat split; reflexivity].
    assert (Hpow : 2 ^ 971 = 2 ^ 52 * 2 ^ 919) by (rewrite <- Z.pow_add_r by lia; reflexivity).
    unfold finite_value, far_start, ulp_and_half, near_max, cond_Zopp.
    rewrite Hpow. change (2 ^ 52) with 4503599627370496. lia.
Qed.



(** C3, the second runs of the drivers.  On [int] the second call of
    [test_overflow], [add_numbers(0, max/5, 6)], is stopped and returns
    [success = false]; the second call of [test_underflow],
    [subtract_numbers(max, max/5, 6)], is not: all six subtractions stay in
    the type and it returns [success = true] with the value [-429496727].
    ([test_underflow_signed] shows the same for every signed integer type.) *)
Theorem test_underflow_int_second_run :
  T_div_steps (IntType c_int) (T_max (IntType c_int)) 5 = 429496729 /\
  r2 (test_overflow (IntType c_int)) = Build_CalcResult (IntType c_int) 2147483645 false /\
  r2 (test_underflow (IntType c_int)) = Build_CalcResult (IntType c_int) (-429496727) true.
Proof. repeat split; reflexivity. Qed.

(** C4, the value returned.  On [double], from the start value [near_max]
    with the step [ulp_and_half], both finite values of the type,
    [add_numbers] returns [success = true] and a [value] that is not a finite
    value of the type: positive infinity, the result of an addition that left
    the range; [subtract_numbers] does the same downwards, from
    [near_lowest = - near_max].
    ([int_value_is_partial_sum] shows that on the integer types the value is
    always a partial sum reached through values of the type.) *)
Theorem double_value_not_representable :
  valid_binary 53 1024 near_max = true /\ is_finite near_max = true /\
  valid_binary 53 1024 ulp_and_half = true /\ is_finite ulp_and_half = true /\
  success (add_numbers c_double near_max ulp_and_half 1) = true /\
  value (add_numbers c_double near_max ulp_and_half 1) = S754_infinity false /\
  is_finite (value (add_numbers c_double near_max ulp_and_half 1)) = false /\
  success (subtract_numbers c_double near_lowest ulp_and_half 1) = true /\
  value (subtract_numbers c_double near_lowest ulp_and_half 1) = S754_infinity true.
Proof. repeat split; reflexivity. Qed.

(** C5, symmetry.  For every integer type, when [- step] is a value of the
    type, [subtract_numbers(start, step, count)] and
    [add_numbers(start, -step, count)] return the same result; for every
    binary floating-point format they do so for every step. *)
Theorem subtract_add_symmetry :
  (forall (ty : inttype) (start step : Z) (count : nat),
      in_range ty (- step) ->
      subtract_numbers (IntType ty) start step count =
      add_numbers (IntType ty) start (T_neg (IntType ty) step) count) /\
  (forall (prec emax : Z) (start step : spec_float) (count : nat),
      subtract_numbers (Binary prec emax) start step count =
      add_numbers (Binary prec emax) start (T_neg (Binary prec emax) step) count).
Proof.
  split.
  - intros ty start step count Hneg.
    assert (Hn : T_neg (IntType ty) step = - step) by apply (int_arith_exact ty _ Hneg).
    rewrite Hn.
    apply subtract_loop_neg; simpl.
    + int_cases.
    + int_cases.
    + int_cases.
    + intros a. f_equal. lia.
    + intros a. reflexivity.
  - intros prec emax start step count.
    apply subtract_loop_neg; simpl.
    + apply SFltb_opp_zero.
    + apply SFltb_zero_opp.
    + apply SFltb_zero_excl.
    + intros a. symmetry. apply SFsub_opp_r.
    + intros a. symmetry. apply SFadd_opp_r.
Qed.

Lemma subtract_add_symmetry_witness :
  in_range c_char (- 25) /\
  subtract_numbers (IntType c_char) 127 25 6 =
  add_numbers (IntType c_char) 127 (T_neg (IntType c_char) 25) 6.
Proof.
  assert (Hneg : in_range c_char (- 25)) by concrete_range.
  split; [exact Hneg|].
  exact (proj1 subtract_add_symmetry c_char 127 25 6%nat Hneg).
Defined.

(** C6, zero-step idempotence.  For every integer type, every start value of
    the type and every count, [add_numbers(start, 0, count)] and
    [subtract_numbers(start, 0, count)] return [success = true] and
    [value = start]; for every binary floating-point format, every start
    value and a step that is a zero, they return [success = true] and a value
    that is [start] or, when [start] is a zero, a zero. *)
Theorem zero_step_idempotence :
  (forall (ty : inttype) (start : Z) (count : nat),
      in_range ty start ->
      add_numbers (IntType ty) start 0 count = Build_CalcResult (IntType ty) start true /\
      subtract_numbers (IntType ty) start 0 count = Build_CalcResult (IntType ty) start true) /\
  (forall (prec emax : Z) (start : spec_float) (s : bool) (count : nat),
      success (add_numbers (Binary prec emax) start (S754_zero s) count) = true /\
      same_number (value (add_numbers (Binary prec emax) start (S754_zero s) count)) start /\
      success (subtract_numbers (Binary prec emax) start (S754_zero s) count) = true /\
      same_number (value (subtract_numbers (Binary prec emax) start (S754_zero s) count)) start).
Proof.
  split.
  - intros ty start count Hstart.
    assert (Hzero : in_range ty 0) by (destruct (int_limits ty); unfold in_range; lia).
    split.
    + unfold add_numbers, add_numbers_traced.
      rewrite (int_add_loop_complete ty 0 Hzero); cbn [value success].
      * f_equal. lia.
      * intros i _. replace (start + 0 * i) with start by lia. exact Hstart.
    + unfold subtract_numbers, subtract_numbers_traced.
      rewrite (int_subtract_loop_complete ty 0 Hzero); cbn [value success].
      * f_equal. lia.
      * intros i _. replace (start - 0 * i) with start by lia. exact Hstart.
  - intros prec emax start s count.
    destruct (float_add_loop_zero prec emax s count
                (Build_CalcResult (Binary prec emax) start true)) as [Ha Hva].
    destruct (float_subtract_loop_zero prec emax s count
                (Build_CalcResult (Binary prec emax) start true)) as [Hs Hvs].
    repeat split; assumption.
Qed.

Lemma zero_step_idempotence_witness :
  in_range c_short (- 32768) /\
  add_numbers (IntType c_short) (- 32768) 0 1000 =
    Build_CalcResult (IntType c_short) (- 32768) true /\
  subtract_numbers (IntType c_short) (- 32768) 0 1000 =
    Build_CalcResult (IntType c_short) (- 32768) true.
Proof.
  assert (Hstart : in_range c_short (- 32768)) by concrete_range.
  split; [exact Hstart|].
  exact (proj1 zero_step_idempotence c_short (- 32768) 1000%nat Hstart).
Defined.

(** C7, no operation leaves the range.  On [double], from the start value
    [near_max] with the step [ulp_and_half], the pre-check of [add_numbers]
    computes [max - ulp_and_half], which is half way between two values of
    the type and is rounded up to [near_max]; [near_max] is not greater, so
    the accumulation is carried out, and its result [max + 2^970] is not a
    finite value of the type: the addition overflows to infinity, and the run
    reports [success = true].  [subtract_numbers] does the same downwards.
    ([int_trace_in_range] shows that on the integer types no operation of
    either template has a result outside the type.) *)
Theorem double_accumulation_overflows :
  valid_binary 53 1024 near_max = true /\
  valid_binary 53 1024 ulp_and_half = true /\
  T_sub c_double (T_max c_double) ulp_and_half = near_max /\
  T_add_assign c_double near_max ulp_and_half = S754_infinity false /\
  add_numbers_traced c_double near_max ulp_and_half 1 =
    (Build_CalcResult c_double (S754_infinity false) true,
     [Minus (T_max c_double) ulp_and_half; PlusAssign near_max ulp_and_half]) /\
  T_add c_double (T_lowest c_double) ulp_and_half = near_lowest /\
  T_sub_assign c_double near_lowest ulp_and_half = S754_infinity true /\
  subtract_numbers_traced c_double near_lowest ulp_and_half 1 =
    (Build_CalcResult c_double (S754_infinity true) true,
     [Plus (T_lowest c_double) ulp_and_half; MinusAssign near_lowest ulp_and_half]).
Proof. repeat split; reflexivity. Qed.

(** C8, zero count and the success flag.  For every numeric type, a call with
    [count = 0] performs no operation and returns [success = true] and
    [value = start]; and for every count, the call returns a result whose
    [success] flag is set exactly when all [count] accumulations have been
    performed: there is no other outcome. *)
Theorem zero_count_succeeds (T : NumType) (start step : T) :
  add_numbers_traced T start step 0 = (Build_CalcResult T start true, []) /\
  subtract_numbers_traced T start step 0 = (Build_CalcResult T start true, []) /\
  (forall count : nat,
      success (add_numbers T start step count) =
      (accumulations (trace (add_numbers_traced T start step count)) =? count)%nat) /\
  (forall count : nat,
      success (subtract_numbers T start step count) =
      (accumulations (trace (subtract_numbers_traced T start step count)) =? count)%nat).
Proof.
  split; [reflexivity|]. split; [reflexivity|]. split; intros count.
  - apply (add_loop_flag T step count (Build_CalcResult T start true)).
  - apply (subtract_loop_flag T step count (Build_CalcResult T start true)).
Qed.

(** C9, failure is stable.  For every numeric type, when a call with [n]
    iterations returns [success = false], a call with [m >= n] iterations
    returns the same result. *)
Theorem failure_stable (T : NumType) (start step : T) (n m : nat) :
  (n <= m)%nat ->
  (success (add_numbers T start step n) = false ->
   add_numbers T start step m = add_numbers T start step n) /\
  (success (subtract_numbers T start step n) = false ->
   subtract_numbers T start step m = subtract_numbers T start step n).
Proof.
  intros Hle. split; intros Hstop.
  - unfold add_numbers, add_numbers_traced.
    rewrite (add_loop_stopped T step n (Build_CalcResult T start true) m eq_refl Hstop Hle).
    reflexivity.
  - unfold subtract_numbers, subtract_numbers_traced.
    rewrite (subtract_loop_stopped T step n (Build_CalcResult T start true) m eq_refl Hstop Hle).
    reflexivity.
Qed.

Lemma failure_stable_witness :
  (6 <= 40)%nat /\
  success (add_numbers (IntType c_int) 0 429496729 6) = false /\
  success (subtract_numbers (IntType c_uchar) 255 51 6) = false /\
  add_numbers (IntType c_int) 0 429496729 40 = add_numbers (IntType c_int) 0 429496729 6 /\
  subtract_numbers (IntType c_uchar) 255 51 40 = subtract_numbers (IntType c_uchar) 255 51 6.
Proof.
  assert (Hle : (6 <= 40)%nat) by lia.
  split; [exact Hle|]. split; [reflexivity|]. split; [reflexivity|]. split.
  - exact (proj1 (failure_stable (IntType c_int) 0 429496729 6 40 Hle) eq_refl).
  - exact (proj2 (failure_stable (IntType c_uchar) 255 51 6 40 Hle) eq_refl).
Defined.

(** C10, accumulation composes over the count.  For every numeric type, when
    a call with [a] iterations returns [success = true] and the value [v], a
    call with [a + b] iterations returns the result of a call with [b]
    iterations that starts from [v]. *)
Theorem accumulation_composes (T : NumType) (start step : T) (a b : nat) :
  (success (add_numbers T start step a) = true ->
   add_numbers T start step (a + b) =
   add_numbers T (value (add_numbers T start step a)) step b) /\
  (success (subtract_numbers T start step a) = true ->
   subtract_numbers T start step (a + b) =
   subtract_numbers T (value (subtract_numbers T start step a)) step b).
Proof.
  split; intros Hok.
  - unfold add_numbers, add_numbers_traced in *.
    rewrite (add_loop_split T step a b _ Hok).
    rewrite (CalcResult_eta T _ Hok) at 1. reflexivity.
  - unfold subtract_numbers, subtract_numbers_traced in *.
    rewrite (subtract_loop_split T step a b _ Hok).
    rewrite (CalcResult_eta T _ Hok) at 1. reflexivity.
Qed.

Lemma accumulation_composes_witness :
  success (add_numbers (IntType c_char) 0 25 3) = true /\
  success (subtract_numbers (IntType c_char) 127 25 3) = true /\
  add_numbers (IntType c_char) 0 25 (3 + 3) =
    add_numbers (IntType c_char) (value (add_numbers (IntType c_char) 0 25 3)) 25 3 /\
  subtract_numbers (IntType c_char) 127 25 (3 + 3) =
    subtract_numbers (IntType c_char) (value (subtract_numbers (IntType c_char) 127 25 3)) 25 3.
Proof.
  split; [reflexivity|]. split; [reflexivity|]. split.
  - exact (proj1 (accumulation_composes (IntType c_char) 0 25 3 3) eq_refl).
  - exact (proj2 (accumulation_composes (IntType c_char) 127 25 3 3) eq_refl).
Defined.

(** ** Further properties of the templates on the integer types *)

Section IntCriteria.

Variable ty : inttype.
Local Abbreviation T := (IntType ty).

Variable step : Z.
Hypothesis step_in_range : in_range ty step.

(** The partial sums lie between the first and the last one. *)
Lemma int_sums_between (v n i : Z) :
  in_range ty v -> in_range ty (v + step * n) -> 0 <= i <= n ->
  in_range ty (v + step * i).
Proof. unfold in_range. intros Hv Hn Hi. destruct (Z.le_gt_cases 0 step); nia. Qed.

Lemma int_differences_between (v n i : Z) :
  in_range ty v -> in_range ty (v - step * n) -> 0 <= i <= n ->
  in_range ty (v - step * i).
Proof. unfold in_range. intros Hv Hn Hi. destruct (Z.le_gt_cases 0 step); nia. Qed.

Lemma int_add_loop_success (n : nat) :
  forall out : CalcResult T,
    in_range ty (value out) ->
    success (result (add_loop T step n out)) =
    success out && in_rangeb ty (value out + step * Z.of_nat n).
Proof.
  induction n as [|n IH]; intros out Hv.
  - replace (value out + step * Z.of_nat 0) with (value out) by lia.
    apply in_rangeb_spec in Hv. rewrite Hv, andb_true_r. reflexivity.
  - destruct (int_add_iteration ty step step_in_range n out Hv)
      as [(Hok & -> & _)|(Hbad & -> & _)].
    + rewrite (IH (Build_CalcResult T (value out + step) (success out)) Hok).
      cbn [value success]. do 2 f_equal. lia.
    + cbn [success]. symmetry. apply andb_false_iff. right.
      apply in_rangeb_false. intros Hlast. apply Hbad.
      replace (value out + step) with (value out + step * 1) by lia.
      apply (int_sums_between _ (Z.of_nat (S n))); [assumption|assumption|lia].
Qed.

Lemma int_subtract_loop_success (n : nat) :
  forall out : CalcResult T,
    in_range ty (value out) ->
    success (result (subtract_loop T step n out)) =
    success out && in_rangeb ty (value out - step * Z.of_nat n).
Proof.
  induction n as [|n IH]; intros out Hv.
  - replace (value out - step * Z.of_nat 0) with (value out) by lia.
    apply in_rangeb_spec in Hv. rewrite Hv, andb_true_r. reflexivity.
  - destruct (int_subtract_iteration ty step step_in_range n out Hv)
      as [(Hok & -> & _)|(Hbad & -> & _)].
    + rewrite (IH (Build_CalcResult T (value out - step) (success out)) Hok).
      cbn [value success]. do 2 f_equal. lia.
    + cbn [success]. symmetry. apply andb_false_iff. right.
      apply in_rangeb_false. intros Hlast. apply Hbad.
      replace (value out - step) with (value out - step * 1) by lia.
      apply (int_differences_between _ (Z.of_nat (S n))); [assumption|assumption|lia].
Qed.

End IntCriteria.

(** ** Further properties of the templates on every numeric type *)

Section GenericShape.

Variable T : NumType.
Variable step : T.

Lemma add_unsafe_shape (cur : T) :
  Forall (add_op_shape T step) (trace (add_unsafe T step cur)).
Proof.
  unfold add_unsafe, trace.
  destruct (T_gt T step (T_zero T)); [|destruct (T_lt T step (T_zero T))]; simpl.
  - constructor; [|constructor]. split; [left|]; reflexivity.
  - constructor; [|constructor]. split; [right|]; reflexivity.
  - constructor.
Qed.

Lemma subtract_unsafe_shape (cur : T) :
  Forall (subtract_op_shape T step) (trace (subtract_unsafe T step cur)).
Proof.
  unfold subtract_unsafe, trace.
  destruct (T_gt T step (T_zero T)); [|destruct (T_lt T step (T_zero T))]; simpl.
  - constructor; [|constructor]. split; [right|]; reflexivity.
  - constructor; [|constructor]. split; [left|]; reflexivity.
  - constructor.
Qed.

Lemma add_loop_shape (n : nat) :
  forall out : CalcResult T,
    Forall (add_op_shape T step) (trace (add_loop T step n out)) /\
    (accumulations (trace (add_loop T step n out)) <= n)%nat.
Proof.
  induction n as [|n IH]; intros out.
  - split; [constructor|apply Nat.le_refl].
  - rewrite add_loop_trace, accumulations_app, add_unsafe_accumulations.
    destruct (result (add_unsafe T step (value out))).
    + rewrite app_nil_r. split; [apply add_unsafe_shape|unfold accumulations; simpl; lia].
    + destruct (IH (Build_CalcResult T (T_add_assign T (value out) step) (success out)))
        as [Hshape Hacc].
      split.
      * apply Forall_app. split; [apply add_unsafe_shape|].
        constructor; [reflexivity|exact Hshape].
      * rewrite accumulations_cons_assign by reflexivity. simpl. lia.
Qed.

Lemma subtract_loop_shape (n : nat) :
  forall out : CalcResult T,
    Forall (subtract_op_shape T step) (trace (subtract_loop T step n out)) /\
    (accumulations (trace (subtract_loop T step n out)) <= n)%nat.
Proof.
  induction n as [|n IH]; intros out.
  - split; [constructor|apply Nat.le_refl].
  - rewrite subtract_loop_trace, accumulations_app, subtract_unsafe_accumulations.
    destruct (result (subtract_unsafe T step (value out))).
    + rewrite app_nil_r. split; [apply subtract_unsafe_shape|unfold accumulations; simpl; lia].
    + destruct (IH (Build_CalcResult T (T_sub_assign T (value out) step) (success out)))
        as [Hshape Hacc].
      split.
      * apply Forall_app. split; [apply subtract_unsafe_shape|].
        constructor; [reflexivity|exact Hshape].
      * rewrite accumulations_cons_assign by reflexivity. simpl. lia.
Qed.

(** A run that was stopped returns a value from which the pre-check rejects
    the step. *)
Lemma add_loop_rejected (n : nat) :
  forall out : CalcResult T,
    success out = true ->
    success (result (add_loop T step n out)) = false ->
    result (add_unsafe T step (value (result (add_loop T step n out)))) = true.
Proof.
  induction n as [|n IH]; intros out Hout Hstop.
  - simpl in Hstop. congruence.
  - rewrite add_loop_result in Hstop |- *.
    destruct (result (add_unsafe T step (value out))) eqn:Hguard.
    + exact Hguard.
    + apply IH; assumption.
Qed.

Lemma subtract_loop_rejected (n : nat) :
  forall out : CalcResult T,
    success out = true ->
    success (result (subtract_loop T step n out)) = false ->
    result (subtract_unsafe T step (value (result (subtract_loop T step n out)))) = true.
Proof.
  induction n as [|n IH]; intros out Hout Hstop.
  - simpl in Hstop. congruence.
  - rewrite subtract_loop_result in Hstop |- *.
    destruct (result (subtract_unsafe T step (value out))) eqn:Hguard.
    + exact Hguard.
    + apply IH; assumption.
Qed.

End GenericShape.

Section IntClosedForm.

Variable ty : inttype.
Local Abbreviation T := (IntType ty).

Variable step : Z.
Hypothesis step_in_range : in_range ty step.

(** Exactly the first [K] steps are safe: the loop performs the smaller of
    [n] and [K] accumulations. *)
Lemma int_add_loop_capped (K : Z) (n : nat) (out : CalcResult T) :
  0 <= K ->
  (forall i, 0 <= i <= K -> in_range ty (value out + step * i)) ->
  ~ in_range ty (value out + step * (K + 1)) ->
  result (add_loop T step n out) =
  Build_CalcResult T (value out + step * Z.min (Z.of_nat n) K)
    (success out && (Z.of_nat n <=? K)).
Proof.
  intros HK Hsums Hbad.
  destruct (Z.leb_spec (Z.of_nat n) K) as [Hle|Hgt].
  - rewrite Z.min_l, andb_true_r by lia.
    apply (int_add_loop_complete ty step step_in_range).
    intros i Hi. apply Hsums. lia.
  - rewrite Z.min_r, andb_false_r by lia.
    destruct (int_add_loop_first_violation ty step step_in_range (Z.to_nat K) n out)
      as [Hres _].
    + lia.
    + intros i Hi. apply Hsums. lia.
    + rewrite Z2Nat.id by lia. exact Hbad.
    + rewrite Hres, Z2Nat.id by lia. reflexivity.
Qed.

Lemma int_subtract_loop_capped (K : Z) (n : nat) (out : CalcResult T) :
  0 <= K ->
  (forall i, 0 <= i <= K -> in_range ty (value out - step * i)) ->
  ~ in_range ty (value out - step * (K + 1)) ->
  result (subtract_loop T step n out) =
  Build_CalcResult T (value out - step * Z.min (Z.of_nat n) K)
    (success out && (Z.of_nat n <=? K)).
Proof.
  intros HK Hsums Hbad.
  destruct (Z.leb_spec (Z.of_nat n) K) as [Hle|Hgt].
  - rewrite Z.min_l, andb_true_r by lia.
    apply (int_subtract_loop_complete ty step step_in_range).
    intros i Hi. apply Hsums. lia.
  - rewrite Z.min_r, andb_false_r by lia.
    destruct (int_subtract_loop_first_violation ty step step_in_range (Z.to_nat K) n out)
      as [Hres _].
    + lia.
    + intros i Hi. apply Hsums. lia.
    + rewrite Z2Nat.id by lia. exact Hbad.
    + rewrite Hres, Z2Nat.id by lia. reflexivity.
Qed.

(** How many times a positive stride fits into the room that is left. *)
Lemma room_div (room stride : Z) :
  0 <= room -> 0 < stride ->
  0 <= room / stride /\
  (forall i, 0 <= i <= room / stride -> 0 <= stride * i <= room) /\
  room < stride * (room / stride + 1).
Proof.
  intros Hroom Hstride.
  pose proof (Z.div_pos room stride Hroom Hstride) as Hq.
  pose proof (Z.mul_div_le room stride Hstride) as Hle.
  pose proof (Z.mul_succ_div_gt room stride Hstride) as Hgt.
  split; [exact Hq|]. split; [|lia].
  intros i Hi. nia.
Qed.

End IntClosedForm.

(** [numeric_limits<T>::max() / steps] with [steps = 5], on every integer
    type. *)
Lemma int_driver_step_any (ty : inttype) :
  T_div_steps (IntType ty) (T_max (IntType ty)) 5 = int_max ty / 5 /\
  0 <= 5 * (int_max ty / 5) <= int_max ty /\
  in_range ty (int_max ty / 5).
Proof.
  destruct (int_limits ty) as [Hmax Hlow].
  pose proof (Z.div_pos (int_max ty) 5 Hmax ltac:(lia)) as Hq.
  pose proof (Z.mul_div_le (int_max ty) 5 ltac:(lia)) as Hle.
  assert (Hin : in_range ty (int_max ty / 5)) by (unfold in_range; lia).
  split; [|split; [lia|exact Hin]].
  simpl. change (Z.pos (Pos.of_succ_nat 4)) with 5.
  rewrite Z.quot_div_nonneg by lia.
  apply wrap_in_range, Hin.
Qed.

(** An infinite step is rejected by the first pre-check. *)
Lemma float_infinite_step_unsafe (prec emax : Z) (cur : spec_float) (s : bool) :
  is_finite cur = true ->
  result (add_unsafe (Binary prec emax) (S754_infinity s) cur) = true /\
  result (subtract_unsafe (Binary prec emax) (S754_infinity s) cur) = true.
Proof.
  intros Hfin. destruct cur as [sc|sc| |sc mc ec]; try discriminate Hfin;
    destruct s; split; reflexivity.
Qed.

(** ** Further properties *)

(** X1, the pre-check is the range test.  On every integer type, for a
    running value and a step of the type, the pre-check of [add_numbers]
    rejects the step exactly when [cur + step] is not a value of the type,
    and the pre-check of [subtract_numbers] exactly when [cur - step] is
    not. *)
Theorem int_precheck_is_range_test (ty : inttype) (cur step : Z) :
  in_range ty cur -> in_range ty step ->
  (result (add_unsafe (IntType ty) step cur) = true <-> ~ in_range ty (cur + step)) /\
  (result (subtract_unsafe (IntType ty) step cur) = true <-> ~ in_range ty (cur - step)).
Proof.
  intros Hcur Hstep.
  destruct (int_add_unsafe ty step cur Hstep Hcur) as [-> _].
  destruct (int_subtract_unsafe ty step cur Hstep Hcur) as [-> _].
  rewrite !negb_true_iff, !in_rangeb_false. tauto.
Qed.

Lemma int_precheck_is_range_test_witness :
  in_range c_int 2147483645 /\ in_range c_int 429496729 /\
  (result (add_unsafe (IntType c_int) 429496729 2147483645) = true <->
   ~ in_range c_int (2147483645 + 429496729)) /\
  (result (subtract_unsafe (IntType c_int) 429496729 2147483645) = true <->
   ~ in_range c_int (2147483645 - 429496729)).
Proof.
  assert (Hcur : in_range c_int 2147483645) by concrete_range.
  assert (Hstep : in_range c_int 429496729) by concrete_range.
  split; [exact Hcur|]. split; [exact Hstep|].
  exact (int_precheck_is_range_test c_int 2147483645 429496729 Hcur Hstep).
Defined.

(** X2, the success criterion.  On every integer type, for a start value and
    a step of the type, [add_numbers] returns [success = true] exactly when
    the final sum [start + step * count] is a value of the type, and
    [subtract_numbers] exactly when [start - step * count] is. *)
Theorem int_success_iff_final_sum (ty : inttype) (start step : Z) (count : nat) :
  in_range ty start -> in_range ty step ->
  success (add_numbers (IntType ty) start step count) =
    in_rangeb ty (start + step * Z.of_nat count) /\
  success (subtract_numbers (IntType ty) start step count) =
    in_rangeb ty (start - step * Z.of_nat count).
Proof.
  intros Hstart Hstep. split.
  - apply (int_add_loop_success ty step Hstep count
             (Build_CalcResult (IntType ty) start true) Hstart).
  - apply (int_subtract_loop_success ty step Hstep count
             (Build_CalcResult (IntType ty) start true) Hstart).
Qed.

Lemma int_success_iff_final_sum_witness :
  in_range c_char (- 100) /\ in_range c_char (- 7) /\
  success (add_numbers (IntType c_char) (- 100) (- 7) 6) =
    in_rangeb c_char (- 100 + - 7 * Z.of_nat 6) /\
  success (subtract_numbers (IntType c_char) (- 100) (- 7) 6) =
    in_rangeb c_char (- 100 - - 7 * Z.of_nat 6).
Proof.
  assert (Hstart : in_range c_char (- 100)) by concrete_range.
  assert (Hstep : in_range c_char (- 7)) by concrete_range.
  split; [exact Hstart|]. split; [exact Hstep|].
  exact (int_success_iff_final_sum c_char (- 100) (- 7) 6 Hstart Hstep).
Defined.

Lemma int_value_is_partial_sum_witness :
  in_range c_char 100 /\ in_range c_char 9 /\
  (exists i : nat,
      (i <= 10)%nat /\
      value (add_numbers (IntType c_char) 100 9 10) = 100 + 9 * Z.of_nat i /\
      forall j, 0 <= j <= Z.of_nat i -> in_range c_char (100 + 9 * j)) /\
  (exists i : nat,
      (i <= 10)%nat /\
      value (subtract_numbers (IntType c_char) 100 9 10) = 100 - 9 * Z.of_nat i /\
      forall j, 0 <= j <= Z.of_nat i -> in_range c_char (100 - 9 * j)).
Proof.
  assert (Hstart : in_range c_char 100) by concrete_range.
  assert (Hstep : in_range c_char 9) by concrete_range.
  split; [exact Hstart|]. split; [exact Hstep|].
  exact (int_value_is_partial_sum c_char 100 9 10 Hstart Hstep).
Defined.

Lemma int_trace_in_range_witness :
  in_range c_uchar 200 /\ in_range c_uchar 30 /\
  ops_in_range c_uchar (trace (add_numbers_traced (IntType c_uchar) 200 30 4)) /\
  ops_in_range c_uchar (trace (subtract_numbers_traced (IntType c_uchar) 200 30 4)).
Proof.
  assert (Hstart : in_range c_uchar 200) by concrete_range.
  assert (Hstep : in_range c_uchar 30) by concrete_range.
  split; [exact Hstart|]. split; [exact Hstep|].
  exact (int_trace_in_range c_uchar 200 30 4 Hstart Hstep).
Defined.

(** X5, the value of a stopped run is the last safe one.  On every numeric
    type, when a run returns [success = false], the pre-check rejects the
    step from the value returned.  On every integer type that value is a
    value of the type and one more step from it is not. *)
Theorem rejected_value_is_last_safe :
  (forall (T : NumType) (start step : T) (count : nat),
      (success (add_numbers T start step count) = false ->
       result (add_unsafe T step (value (add_numbers T start step count))) = true) /\
      (success (subtract_numbers T start step count) = false ->
       result (subtract_unsafe T step (value (subtract_numbers T start step count))) = true)) /\
  (forall (ty : inttype) (start step : Z) (count : nat),
      in_range ty start -> in_range ty step ->
      (success (add_numbers (IntType ty) start step count) = false ->
       in_range ty (value (add_numbers (IntType ty) start step count)) /\
       ~ in_range ty (value (add_numbers (IntType ty) start step count) + step)) /\
      (success (subtract_numbers (IntType ty) start step count) = false ->
       in_range ty (value (subtract_numbers (IntType ty) start step count)) /\
       ~ in_range ty (value (subtract_numbers (IntType ty) start step count) - step))).
Proof.
  split.
  - intros T start step count. split; intros Hstop.
    + apply (add_loop_rejected T step count (Build_CalcResult T start true) eq_refl Hstop).
    + apply (subtract_loop_rejected T step count (Build_CalcResult T start true) eq_refl Hstop).
  - intros ty start step count Hstart Hstep. split; intros Hstop.
    + assert (Hv : in_range ty (value (add_numbers (IntType ty) start step count))).
      { destruct (int_add_loop_partial_sum ty step Hstep count
                    (Build_CalcResult (IntType ty) start true) Hstart)
          as (i & _ & Hval & Hsums).
        unfold add_numbers, add_numbers_traced. rewrite Hval. apply Hsums. lia. }
      split; [exact Hv|].
      apply in_rangeb_false.
      destruct (int_add_unsafe ty step _ Hstep Hv) as [Hguard _].
      pose proof (add_loop_rejected (IntType ty) step count
                    (Build_CalcResult (IntType ty) start true) eq_refl Hstop) as Hrej.
      change (result (add_unsafe (IntType ty) step
                        (value (add_numbers (IntType ty) start step count))) = true) in Hrej.
      rewrite Hrej in Hguard.
      symmetry in Hguard. apply negb_true_iff in Hguard. exact Hguard.
    + assert (Hv : in_range ty (value (subtract_numbers (IntType ty) start step count))).
      { destruct (int_subtract_loop_partial_sum ty step Hstep count
                    (Build_CalcResult (IntType ty) start true) Hstart)
          as (i & _ & Hval & Hsums).
        unfold subtract_numbers, subtract_numbers_traced. rewrite Hval. apply Hsums. lia. }
      split; [exact Hv|].
      apply in_rangeb_false.
      destruct (int_subtract_unsafe ty step _ Hstep Hv) as [Hguard _].
      pose proof (subtract_loop_rejected (IntType ty) step count
                    (Build_CalcResult (IntType ty) start true) eq_refl Hstop) as Hrej.
      change (result (subtract_unsafe (IntType ty) step
                        (value (subtract_numbers (IntType ty) start step count))) = true)
        in Hrej.
      rewrite Hrej in Hguard.
      symmetry in Hguard. apply negb_true_iff in Hguard. exact Hguard.
Qed.

Lemma rejected_value_is_last_safe_witness :
  in_range c_short 30000 /\ in_range c_short 1000 /\
  success (add_numbers (IntType c_short) 30000 1000 10) = false /\
  in_range c_short (value (add_numbers (IntType c_short) 30000 1000 10)) /\
  ~ in_range c_short (value (add_numbers (IntType c_short) 30000 1000 10) + 1000).
Proof.
  assert (Hstart : in_range c_short 30000) by concrete_range.
  assert (Hstep : in_range c_short 1000) by concrete_range.
  split; [exact Hstart|]. split; [exact Hstep|]. split; [reflexivity|].
  exact (proj1 (proj2 rejected_value_is_last_safe c_short 30000 1000 10%nat Hstart Hstep)
           eq_refl).
Defined.

(** X6, the closed form of [add_numbers].  On every integer type, from a
    start value of the type, [add_numbers] with a positive step performs the
    smaller of [count] and [(max - start) / step] additions, and with a
    negative step the smaller of [count] and [(start - lowest) / (- step)];
    it succeeds exactly when [count] is the smaller one. *)
Theorem add_numbers_closed_form (ty : inttype) (start step : Z) (count : nat) :
  in_range ty start -> in_range ty step ->
  (0 < step ->
   add_numbers (IntType ty) start step count =
   Build_CalcResult (IntType ty)
     (start + step * Z.min (Z.of_nat count) ((int_max ty - start) / step))
     (Z.of_nat count <=? (int_max ty - start) / step)) /\
  (step < 0 ->
   add_numbers (IntType ty) start step count =
   Build_CalcResult (IntType ty)
     (start + step * Z.min (Z.of_nat count) ((start - int_lowest ty) / (- step)))
     (Z.of_nat count <=? (start - int_lowest ty) / (- step))).
Proof.
  intros Hstart Hstep. unfold in_range in Hstart. split; intros Hsign.
  - destruct (room_div (int_max ty - start) step) as (HK & Hfit & Hover); [lia|lia|].
    apply (int_add_loop_capped ty step Hstep _ count
             (Build_CalcResult (IntType ty) start true) HK); cbn [value].
    + intros i Hi. specialize (Hfit i Hi). unfold in_range. lia.
    + unfold in_range. lia.
  - destruct (room_div (start - int_lowest ty) (- step)) as (HK & Hfit & Hover); [lia|lia|].
    apply (int_add_loop_capped ty step Hstep _ count
             (Build_CalcResult (IntType ty) start true) HK); cbn [value].
    + intros i Hi. specialize (Hfit i Hi). unfold in_range. lia.
    + unfold in_range. lia.
Qed.

Lemma add_numbers_closed_form_witness :
  in_range c_int 0 /\ in_range c_int 429496729 /\ 0 < 429496729 /\
  add_numbers (IntType c_int) 0 429496729 6 =
  Build_CalcResult (IntType c_int)
    (0 + 429496729 * Z.min (Z.of_nat 6) ((int_max c_int - 0) / 429496729))
    (Z.of_nat 6 <=? (int_max c_int - 0) / 429496729).
Proof.
  assert (Hstart : in_range c_int 0) by concrete_range.
  assert (Hstep : in_range c_int 429496729) by concrete_range.
  assert (Hpos : 0 < 429496729) by lia.
  split; [exact Hstart|]. split; [exact Hstep|]. split; [exact Hpos|].
  exact (proj1 (add_numbers_closed_form c_int 0 429496729 6 Hstart Hstep) Hpos).
Defined.

(** X7, the closed form of [subtract_numbers].  On every integer type, from
    a start value of the type, [subtract_numbers] with a positive step
    performs the smaller of [count] and [(start - lowest) / step]
    subtractions, and with a negative step the smaller of [count] and
    [(max - start) / (- step)]; it succeeds exactly when [count] is the
    smaller one. *)
Theorem subtract_numbers_closed_form (ty : inttype) (start step : Z) (count : nat) :
  in_range ty start -> in_range ty step ->
  (0 < step ->
   subtract_numbers (IntType ty) start step count =
   Build_CalcResult (IntType ty)
     (start - step * Z.min (Z.of_nat count) ((start - int_lowest ty) / step))
     (Z.of_nat count <=? (start - int_lowest ty) / step)) /\
  (step < 0 ->
   subtract_numbers (IntType ty) start step count =
   Build_CalcResult (IntType ty)
     (start - step * Z.min (Z.of_nat count) ((int_max ty - start) / (- step)))
     (Z.of_nat count <=? (int_max ty - start) / (- step))).
Proof.
  intros Hstart Hstep. unfold in_range in Hstart. split; intros Hsign.
  - destruct (room_div (start - int_lowest ty) step) as (HK & Hfit & Hover); [lia|lia|].
    apply (int_subtract_loop_capped ty step Hstep _ count
             (Build_CalcResult (IntType ty) start true) HK); cbn [value].
    + intros i Hi. specialize (Hfit i Hi). unfold in_range. lia.
    + unfold in_range. lia.
  - destruct (room_div (int_max ty - start) (- step)) as (HK & Hfit & Hover); [lia|lia|].
    apply (int_subtract_loop_capped ty step Hstep _ count
             (Build_CalcResult (IntType ty) start true) HK); cbn [value].
    + intros i Hi. specialize (Hfit i Hi). unfold in_range. lia.
    + unfold in_range. lia.
Qed.

Lemma subtract_numbers_closed_form_witness :
  in_range c_uchar 255 /\ in_range c_uchar 51 /\ 0 < 51 /\
  subtract_numbers (IntType c_uchar) 255 51 6 =
  Build_CalcResult (IntType c_uchar)
    (255 - 51 * Z.min (Z.of_nat 6) ((255 - int_lowest c_uchar) / 51))
    (Z.of_nat 6 <=? (255 - int_lowest c_uchar) / 51).
Proof.
  assert (Hstart : in_range c_uchar 255) by concrete_range.
  assert (Hstep : in_range c_uchar 51) by concrete_range.
  assert (Hpos : 0 < 51) by lia.
  split; [exact Hstart|]. split; [exact Hstep|]. split; [exact Hpos|].
  exact (proj1 (subtract_numbers_closed_form c_uchar 255 51 6 Hstart Hstep) Hpos).
Defined.

(** A successful run on an integer type and the run that undoes it. *)
Lemma int_add_then_subtract (ty : inttype) (start step : Z) (count : nat) :
  in_range ty start -> in_range ty step ->
  success (add_numbers (IntType ty) start step count) = true ->
  add_numbers (IntType ty) start step count =
    Build_CalcResult (IntType ty) (start + step * Z.of_nat count) true /\
  subtract_numbers (IntType ty) (start + step * Z.of_nat count) step count =
    Build_CalcResult (IntType ty) start true.
Proof.
  intros Hstart Hstep Hok.
  unfold add_numbers, add_numbers_traced in Hok.
  rewrite (int_add_loop_success ty step Hstep count
             (Build_CalcResult (IntType ty) start true) Hstart) in Hok.
  cbn [value success andb] in Hok. apply in_rangeb_spec in Hok.
  split.
  - apply (int_add_loop_complete ty step Hstep count
             (Build_CalcResult (IntType ty) start true)).
    cbn [value]. intros i Hi.
    apply (int_sums_between ty step start (Z.of_nat count)); assumption.
  - unfold subtract_numbers, subtract_numbers_traced.
    rewrite (int_subtract_loop_complete ty step Hstep count); cbn [value success].
    + f_equal. lia.
    + intros i Hi.
      replace (start + step * Z.of_nat count - step * i)
        with (start + step * (Z.of_nat count - i)) by lia.
      apply (int_sums_between ty step start (Z.of_nat count)); [assumption|assumption|lia].
Qed.

Lemma int_subtract_then_add (ty : inttype) (start step : Z) (count : nat) :
  in_range ty start -> in_range ty step ->
  success (subtract_numbers (IntType ty) start step count) = true ->
  subtract_numbers (IntType ty) start step count =
    Build_CalcResult (IntType ty) (start - step * Z.of_nat count) true /\
  add_numbers (IntType ty) (start - step * Z.of_nat count) step count =
    Build_CalcResult (IntType ty) start true.
Proof.
  intros Hstart Hstep Hok.
  unfold subtract_numbers, subtract_numbers_traced in Hok.
  rewrite (int_subtract_loop_success ty step Hstep count
             (Build_CalcResult (IntType ty) start true) Hstart) in Hok.
  cbn [value success andb] in Hok. apply in_rangeb_spec in Hok.
  split.
  - apply (int_subtract_loop_complete ty step Hstep count
             (Build_CalcResult (IntType ty) start true)).
    cbn [value]. intros i Hi.
    apply (int_differences_between ty step start (Z.of_nat count)); assumption.
  - unfold add_numbers, add_numbers_traced.
    rewrite (int_add_loop_complete ty step Hstep count); cbn [value success].
    + f_equal. lia.
    + intros i Hi.
      replace (start - step * Z.of_nat count + step * i)
        with (start - step * (Z.of_nat count - i)) by lia.
      apply (int_differences_between ty step start (Z.of_nat count));
        [assumption|assumption|lia].
Qed.

(** X8, round trip.  On every integer type, when [add_numbers] succeeds from
    a start value of the type, [subtract_numbers] with the same step and
    count from the value it returns succeeds and returns the start value;
    and the same with the two routines exchanged. *)
Theorem add_subtract_round_trip (ty : inttype) (start step : Z) (count : nat) :
  in_range ty start -> in_range ty step ->
  (success (add_numbers (IntType ty) start step count) = true ->
   subtract_numbers (IntType ty)
     (value (add_numbers (IntType ty) start step count)) step count =
   Build_CalcResult (IntType ty) start true) /\
  (success (subtract_numbers (IntType ty) start step count) = true ->
   add_numbers (IntType ty)
     (value (subtract_numbers (IntType ty) start step count)) step count =
   Build_CalcResult (IntType ty) start true).
Proof.
  intros Hstart Hstep. split; intros Hok.
  - destruct (int_add_then_subtract ty start step count Hstart Hstep Hok) as [-> Hback].
    exact Hback.
  - destruct (int_subtract_then_add ty start step count Hstart Hstep Hok) as [-> Hback].
    exact Hback.
Qed.

Lemma add_subtract_round_trip_witness :
  in_range c_char (- 128) /\ in_range c_char 51 /\
  success (add_numbers (IntType c_char) (- 128) 51 5) = true /\
  subtract_numbers (IntType c_char)
    (value (add_numbers (IntType c_char) (- 128) 51 5)) 51 5 =
  Build_CalcResult (IntType c_char) (- 128) true.
Proof.
  assert (Hstart : in_range c_char (- 128)) by concrete_range.
  assert (Hstep : in_range c_char 51) by concrete_range.
  split; [exact Hstart|]. split; [exact Hstep|]. split; [reflexivity|].
  exact (proj1 (add_subtract_round_trip c_char (- 128) 51 5 Hstart Hstep) eq_refl).
Defined.

(** X9, the operations performed.  On every numeric type, the only
    operations of [add_numbers] are the subtraction of the step from [max]
    or from [lowest] in a pre-check and the addition of the step to the
    running value; it never adds in a pre-check, and it performs at most
    [count] accumulations.  [subtract_numbers] mirrors it. *)
Theorem operations_performed (T : NumType) (start step : T) (count : nat) :
  Forall (add_op_shape T step) (trace (add_numbers_traced T start step count)) /\
  (accumulations (trace (add_numbers_traced T start step count)) <= count)%nat /\
  Forall (subtract_op_shape T step) (trace (subtract_numbers_traced T start step count)) /\
  (accumulations (trace (subtract_numbers_traced T start step count)) <= count)%nat.
Proof.
  destruct (add_loop_shape T step count (Build_CalcResult T start true)) as [Ha Hna].
  destruct (subtract_loop_shape T step count (Build_CalcResult T start true)) as [Hs Hns].
  repeat split; assumption.
Qed.

(** The first calls of the drivers on an integer type. *)
Lemma int_drivers_first_run (ty : inttype) :
  r1 (test_overflow (IntType ty)) =
    Build_CalcResult (IntType ty) (5 * (int_max ty / 5)) true /\
  r1 (test_underflow (IntType ty)) =
    Build_CalcResult (IntType ty) (int_max ty - 5 * (int_max ty / 5)) true.
Proof.
  destruct (int_driver_step_any ty) as (Hstep & Hb & Hq).
  destruct (int_limits ty) as [Hmax Hlow].
  assert (Hq0 : 0 <= int_max ty / 5) by lia.
  split.
  - unfold test_overflow, r1. cbv zeta.
    unfold add_numbers, add_numbers_traced. rewrite Hstep.
    rewrite (int_add_loop_complete ty (int_max ty / 5) Hq).
    + cbn [value T_zero T_max IntType]. f_equal. lia.
    + cbn [value T_zero T_max IntType]. unfold in_range. intros i Hi. nia.
  - unfold test_underflow, r1. cbv zeta.
    unfold subtract_numbers, subtract_numbers_traced. rewrite Hstep.
    rewrite (int_subtract_loop_complete ty (int_max ty / 5) Hq).
    + cbn [value T_zero T_max IntType]. f_equal. lia.
    + cbn [value T_zero T_max IntType]. unfold in_range. intros i Hi. nia.
Qed.

(** X10, the first runs of the drivers.  On every integer type the first
    call of [test_overflow], [add_numbers(0, max/5, 5)], succeeds with the
    value [5 * (max/5)], and the first call of [test_underflow],
    [subtract_numbers(max, max/5, 5)], succeeds with the value
    [max - 5 * (max/5)]. *)
Theorem drivers_first_run_succeeds (ty : inttype) :
  r1 (test_overflow (IntType ty)) =
    Build_CalcResult (IntType ty) (5 * (int_max ty / 5)) true /\
  r1 (test_underflow (IntType ty)) =
    Build_CalcResult (IntType ty) (int_max ty - 5 * (int_max ty / 5)) true.
Proof. exact (int_drivers_first_run ty). Qed.

(** X11, the second runs that are stopped.  On every integer type of at
    least 8 bits the second call of [test_overflow] is stopped and returns
    [success = false] with the value of the first call; on an unsigned one
    the second call of [test_underflow] does so too. *)
Theorem drivers_second_run_stopped (ty : inttype) :
  (8 <= bits ty)%positive ->
  r2 (test_overflow (IntType ty)) =
    Build_CalcResult (IntType ty) (value (r1 (test_overflow (IntType ty)))) false /\
  (is_signed ty = false ->
   r2 (test_underflow (IntType ty)) =
     Build_CalcResult (IntType ty) (value (r1 (test_underflow (IntType ty)))) false).
Proof.
  intros Hbits. destruct (int_drivers_first_run ty) as [-> ->]. split.
  - apply (test_overflow_int ty Hbits).
  - intros Hu. apply (test_underflow_unsigned ty Hbits Hu).
Qed.

Lemma drivers_second_run_stopped_witness :
  (8 <= bits c_ulonglong)%positive /\
  is_signed c_ulonglong = false /\
  r2 (test_overflow (IntType c_ulonglong)) =
    Build_CalcResult (IntType c_ulonglong)
      (value (r1 (test_overflow (IntType c_ulonglong)))) false /\
  r2 (test_underflow (IntType c_ulonglong)) =
    Build_CalcResult (IntType c_ulonglong)
      (value (r1 (test_underflow (IntType c_ulonglong)))) false.
Proof.
  assert (Hbits : (8 <= bits c_ulonglong)%positive) by (simpl; lia).
  split; [exact Hbits|]. split; [reflexivity|]. split.
  - exact (proj1 (drivers_second_run_stopped c_ulonglong Hbits)).
  - exact (proj2 (drivers_second_run_stopped c_ulonglong Hbits) eq_refl).
Defined.

(** X12, an infinite step.  On every binary floating-point format, from a
    finite start value and with at least one iteration, [add_numbers] and
    [subtract_numbers] with an infinite step are stopped by the first
    pre-check: they return [success = false] and the start value, and
    perform no accumulation. *)
Theorem float_infinite_step_stopped
    (prec emax : Z) (start : spec_float) (s : bool) (count : nat) :
  is_finite start = true ->
  add_numbers (Binary prec emax) start (S754_infinity s) (S count) =
    Build_CalcResult (Binary prec emax) start false /\
  accumulations
    (trace (add_numbers_traced (Binary prec emax) start (S754_infinity s) (S count))) = 0%nat /\
  subtract_numbers (Binary prec emax) start (S754_infinity s) (S count) =
    Build_CalcResult (Binary prec emax) start false /\
  accumulations
    (trace (subtract_numbers_traced (Binary prec emax) start (S754_infinity s) (S count)))
  = 0%nat.
Proof.
  intros Hfin.
  destruct (float_infinite_step_unsafe prec emax start s Hfin) as [Ha Hs].
  unfold add_numbers, subtract_numbers, add_numbers_traced, subtract_numbers_traced.
  rewrite add_loop_result, add_loop_trace, subtract_loop_result, subtract_loop_trace.
  cbn [value]. rewrite Ha, Hs, !app_nil_r.
  rewrite add_unsafe_accumulations, subtract_unsafe_accumulations.
  repeat split; reflexivity.
Qed.

Lemma float_infinite_step_stopped_witness :
  is_finite near_max = true /\
  add_numbers c_double near_max (S754_infinity false) 3 =
    Build_CalcResult c_double near_max false /\
  subtract_numbers c_double near_max (S754_infinity false) 3 =
    Build_CalcResult c_double near_max false.
Proof.
  split; [reflexivity|].
  destruct (float_infinite_step_stopped 53 1024 near_max false 2 eq_refl)
    as (Ha & _ & Hs & _).
  split; [exact Ha|exact Hs].
Defined.
